(** * Rambler gas gauge: a shallow embedding of the two Arduino sketches

    The repository holds two variants of one sketch for an Arduino Uno:

    - [src/unnamed/part_000]: the two-stage, unfiltered variant (raw reading
      -> ohms -> gallons), module [Ohm] below;
    - [src/gas-gauge.ino]: the single-stage, filtered variant (rolling
      average of the last 100 readings -> gallons), module [Gas] below.

    Both share the sample scheduler at the head of [loop] and the display
    quantizer [get_num_display_blocks_for_gallons], whose text is identical
    in the two files; they are embedded once, in [Scheduler] and [Quantizer].

    Platform facts used by the embedding (the header of both sketches names
    the Arduino Uno, an 8-bit AVR): [int] and [unsigned int] are 16 bits
    wide, [float] and [double] are both IEEE binary32. *)

From Stdlib Require Import ZArith QArith Qabs Qround Lia Bool List String.
From Stdlib Require Import SpecFloat.
From stdpp Require Import base option list.
Import ListNotations.
Local Open Scope Z_scope.

(** ** Machine integers *)

Module CInt.

Definition INT_MIN : Z := -32768.
Definition INT_MAX : Z := 32767.
Definition UINT_MODULUS : Z := 65536.

Definition in_int_range (z : Z) : bool := (INT_MIN <=? z) && (z <=? INT_MAX).

(** The result of a signed [int] computation: C leaves it undefined when
    the mathematical result does not fit. *)
Definition int_checked (z : Z) : option Z :=
  if in_int_range z then Some z else None.

(** Conversion to [unsigned int]; also the truncation of the
    [unsigned long] that [millis()] returns. *)
Definition to_uint (z : Z) : Z := z mod UINT_MODULUS.

(** [unsigned int] subtraction wraps around. *)
Definition uint_sub (a b : Z) : Z := (a - b) mod UINT_MODULUS.

(** Arduino.h: [#define min(a,b) ((a)<(b)?(a):(b))] and
    [#define max(a,b) ((a)>(b)?(a):(b))]. *)
Definition c_min (a b : Z) : Z := if a <? b then a else b.
Definition c_max (a b : Z) : Z := if a >? b then a else b.

End CInt.

(** ** Binary32 floating point

    The operations are the IEEE 754 ones of [SpecFloat] at precision 24 and
    maximal exponent 128, rounding to nearest, ties to even. *)

Module Float32.

Definition prec : Z := 24.
Definition emax : Z := 128.

Definition float : Type := spec_float.

Definition fadd : float -> float -> float := SFadd prec emax.
Definition fsub : float -> float -> float := SFsub prec emax.
Definition fmul : float -> float -> float := SFmul prec emax.
Definition fdiv : float -> float -> float := SFdiv prec emax.
Definition fneg : float -> float := SFopp.

Definition fzero : float := S754_zero false.

(** Conversion of an integer to [float] (exact below 2^24). *)
Definition float_of_int (z : Z) : float := binary_normalize prec emax z 0 false.

(** The decimal literal [n/d], for [n] and [d] below 2^24: the binary32
    nearest to the quotient, as the compiler picks it. *)
Definition decimal (n d : Z) : float := fdiv (float_of_int n) (float_of_int d).

(** The mantissa and exponent under which binary32 stores a positive
    integer below 2^24. *)
Definition canon_m (p : positive) : positive :=
  Z.to_pos (Z.pos p * 2 ^ (prec - Z.pos (digits2_pos p))).
Definition canon_e (p : positive) : Z := Z.pos (digits2_pos p) - prec.

(** The rational number a finite float stands for. *)
Definition to_Q (f : float) : option Q :=
  match f with
  | S754_zero _ => Some (0 # 1)%Q
  | S754_finite s m e =>
      Some match e with
           | Z0 => (cond_Zopp s (Zpos m) # 1)%Q
           | Zpos p => (cond_Zopp s (Zpos m) * Z.pow_pos 2 p # 1)%Q
           | Zneg p => (cond_Zopp s (Zpos m) # Pos.pow 2 p)%Q
           end
  | S754_infinity _ | S754_nan => None
  end.

(** Truncation toward zero of a rational, and of a finite float. *)
Definition Qtrunc (q : Q) : Z := Z.quot (Qnum q) (Zpos (Qden q)).

Definition ftrunc (f : float) : option Z :=
  match f with
  | S754_zero _ => Some 0
  | S754_finite s m e => Some (cond_Zopp s (Z.shiftl (Zpos m) e))
  | S754_infinity _ | S754_nan => None
  end.

(** The cast [(int)f]: the value truncated toward zero; undefined when
    [f] is not finite or the truncated value does not fit an [int]. *)
Definition float_to_int (f : float) : option Z :=
  z ← ftrunc f; CInt.int_checked z.

(** The order of the values of two finite floats. *)
Definition fle (x y : float) : Prop :=
  match to_Q x, to_Q y with
  | Some a, Some b => (a <= b)%Q
  | _, _ => False
  end.

End Float32.

Import CInt Float32.

(** ** The display quantizer (both sketches, same text) *)

Module Quantizer.

(** [int get_num_display_blocks_for_gallons(float gallons)]:
<<
   int gallon_floor = (int)gallons;
   int desired_blocks = gallon_floor - 2;
   return max(0, min(desired_blocks, 16));
>>
    [None] where the cast or the subtraction is undefined. *)
Definition get_num_display_blocks_for_gallons (gallons : float) : option Z :=
  gallon_floor ← float_to_int gallons;
  desired_blocks ← int_checked (gallon_floor - 2);
  Some (c_max 0 (c_min desired_blocks 16)).

End Quantizer.

(** ** What a tick does to the outside world *)

Inductive pin : Type := A0 | A1.

(** The calls a tick makes, in order: the serial diagnostics, the sensor
    read and the two display calls with the arguments they receive.  What
    [show_gas_meter] and [show_gas_stats] then write to the LCD, cell by
    cell, is not part of the embedding.  A display argument is [None] when
    C leaves its value undefined (an [int] computed out of range). *)
Inductive event : Type :=
  | SerialPrint (text : string)
  | SerialPrintlnDec (value : Z)
  | SerialPrintln (text : string)
  | AnalogRead (p : pin) (value : Z)
  | ShowGasMeter (num_blocks : option Z)
  (* part_000: show_gas_stats(int sensor_value, float ohmage, float gallons) *)
  | ShowGasStatsOhm (sensor_value : Z) (ohmage gallons : option float)
  (* gas-gauge.ino: show_gas_stats(int row, int sensor_value, float gallons) *)
  | ShowGasStatsRow (row : Z) (sensor_value : option Z) (gallons : float).

Definition is_sensor_read (e : event) : bool :=
  match e with AnalogRead _ _ => true | _ => false end.

Definition is_render (e : event) : bool :=
  match e with
  | ShowGasMeter _ | ShowGasStatsOhm _ _ _ | ShowGasStatsRow _ _ _ => true
  | _ => false
  end.

Definition is_diagnostic (e : event) : bool :=
  match e with
  | SerialPrint _ | SerialPrintlnDec _ | SerialPrintln _ => true
  | _ => false
  end.

(** ** The sample scheduler (head and tail of [loop], both sketches) *)

Module Scheduler.

(** The timing globals:
<<
const unsigned int boot_time_ms = millis();
unsigned int last_update_time_ms = boot_time_ms;
bool in_startup_mode = true;
>> *)
Record timing : Type := {
  boot_time_ms : Z;
  last_update_time_ms : Z;
  in_startup_mode : bool
}.

Definition STARTUP_SAMPLE_RATE_MS : Z := 500.
Definition STARTUP_SAMPLE_DURATION_S : Z := 5.
Definition NORMAL_SAMPLE_RATE_S : Z := 5.

Definition at_boot (millis : Z) : timing :=
  {| boot_time_ms := to_uint millis;
     last_update_time_ms := to_uint millis;
     in_startup_mode := true |}.

(** [(current_time_ms < last_update_time_ms) ? 30000
      : current_time_ms - last_update_time_ms] *)
Definition delta_ms (t : timing) (current_time_ms : Z) : Z :=
  if current_time_ms <? last_update_time_ms t then 30000
  else uint_sub current_time_ms (last_update_time_ms t).

(** The condition of the early return. *)
Definition not_yet (t : timing) (current_time_ms : Z) : bool :=
  let delta := delta_ms t current_time_ms in
  (delta <? to_uint STARTUP_SAMPLE_RATE_MS)
  || (negb (in_startup_mode t) && (delta <? to_uint (NORMAL_SAMPLE_RATE_S * 1000))).

Definition due (t : timing) (current_time_ms : Z) : bool :=
  negb (not_yet t current_time_ms).

Definition time_since_boot_ms (t : timing) (current_time_ms : Z) : Z :=
  uint_sub current_time_ms (boot_time_ms t).

(** [if (in_startup_mode) { in_startup_mode = (time_since_boot_ms < 5*1000); }] *)
Definition switch_mode (t : timing) (current_time_ms : Z) : bool :=
  if in_startup_mode t
  then time_since_boot_ms t current_time_ms <? to_uint (STARTUP_SAMPLE_DURATION_S * 1000)
  else in_startup_mode t.

(** The timing globals at the end of a tick that sampled. *)
Definition sampled_at (t : timing) (current_time_ms : Z) : timing :=
  {| boot_time_ms := boot_time_ms t;
     last_update_time_ms := current_time_ms;
     in_startup_mode := switch_mode t current_time_ms |}.

(** The five diagnostic lines every poll writes before the early return. *)
Definition diagnostics (t : timing) (current_time_ms : Z) : list event :=
  [ SerialPrint "Startup?: "; SerialPrintlnDec (Z.b2z (in_startup_mode t));
    SerialPrint "Previous: "; SerialPrintlnDec (last_update_time_ms t);
    SerialPrint "Current: "; SerialPrintlnDec current_time_ms;
    SerialPrint "Delta: "; SerialPrintlnDec (delta_ms t current_time_ms);
    SerialPrintln EmptyString ].

Definition passed : event := SerialPrintln "Passed early return check".

(** The sampling interval of a mode, in milliseconds. *)
Definition interval_ms (startup : bool) : Z :=
  if startup then STARTUP_SAMPLE_RATE_MS else NORMAL_SAMPLE_RATE_S * 1000.

Definition wf (t : timing) : Prop :=
  0 <= boot_time_ms t < UINT_MODULUS /\ 0 <= last_update_time_ms t < UINT_MODULUS.

End Scheduler.

(** ** The two-stage, unfiltered sketch ([src/unnamed/part_000]) *)

Module Ohm.
Import Scheduler Quantizer.

(** [float norm_reading = (reading - 80) / 454.0;] with the [int]
    subtraction undefined on overflow. *)
Definition norm_reading (reading : Z) : option float :=
  d ← int_checked (reading - 80);
  Some (fdiv (float_of_int d) (float_of_int 454)).

(** [0.5387*norm_reading*norm_reading + 0.4665*norm_reading] *)
Definition norm_ohmage_of (x : float) : float :=
  fadd (fmul (fmul (decimal 5387 10000) x) x) (fmul (decimal 4665 10000) x).

Definition norm_ohmage (reading : Z) : option float :=
  norm_ohmage_of <$> norm_reading reading.

(** [return 100.0*norm_ohmage + 2.0;] *)
Definition estimate_ohmage_from_reading (reading : Z) : option float :=
  y ← norm_ohmage reading;
  Some (fadd (fmul (float_of_int 100) y) (float_of_int 2)).

(** [return -0.3016*ohmage + 22.016;] *)
Definition get_gallons_for_ohmage (ohmage : float) : float :=
  fadd (fmul (fneg (decimal 3016 10000)) ohmage) (decimal 22016 1000).

Definition globals : Type := timing.

Definition setup (millis : Z) : globals := at_boot millis.

(** One call of [loop()]: [millis] is what [millis()] returns, [sensor]
    what [analogRead(A0)] returns when it is called. *)
Definition loop (g : globals) (millis sensor : Z) : globals * list event :=
  let current_time_ms := to_uint millis in
  let diag := diagnostics g current_time_ms in
  if not_yet g current_time_ms then (g, diag)
  else
    let sensor_value := sensor in
    let ohmage := estimate_ohmage_from_reading sensor_value in
    let gallons := get_gallons_for_ohmage <$> ohmage in
    let num_blocks := gallons ≫= get_num_display_blocks_for_gallons in
    (sampled_at g current_time_ms,
     diag ++ [ passed; AnalogRead A0 sensor_value;
               ShowGasMeter num_blocks;
               ShowGasStatsOhm sensor_value ohmage gallons ]).

(** A run: the polls in order, each with the clock and the sensor level. *)
Fixpoint run (g : globals) (polls : list (Z * Z)) : globals * list event :=
  match polls with
  | [] => (g, [])
  | (millis, sensor) :: rest =>
      let '(g1, tr1) := loop g millis sensor in
      let '(g2, tr2) := run g1 rest in
      (g2, tr1 ++ tr2)
  end.

(** The startup flag before the first poll and after each one. *)
Fixpoint mode_history (g : globals) (polls : list (Z * Z)) : list bool :=
  in_startup_mode g ::
  match polls with
  | [] => []
  | (millis, sensor) :: rest => mode_history (fst (loop g millis sensor)) rest
  end.

End Ohm.

(** ** The single-stage, filtered sketch ([src/gas-gauge.ino]) *)

Module Gas.
Import Scheduler Quantizer.

(** [return 26.3 - (0.0637 * reading);] *)
Definition estimate_gallons_remaining_from_reading (reading : float) : float :=
  fsub (decimal 263 10) (fmul (decimal 637 10000) reading).

Definition MAX_SAMPLES : Z := 100.

(** The globals: the timing ones and
<<
int samples[MAX_SAMPLES];
int next_sample = 0;
int samples_to_average = 0;
>> *)
Record globals : Type := {
  timing_of : timing;
  samples : list Z;
  next_sample : Z;
  samples_to_average : Z
}.

Definition setup (millis : Z) : globals :=
  {| timing_of := at_boot millis;
     samples := replicate (Z.to_nat MAX_SAMPLES) 0;
     next_sample := 0;
     samples_to_average := 0 |}.

(** [a[i] = v] and [a[i]]: undefined outside the array. *)
Definition array_store (a : list Z) (i v : Z) : option (list Z) :=
  if (0 <=? i) && (i <? Z.of_nat (length a))
  then Some (<[Z.to_nat i := v]> a) else None.

Definition array_load (a : list Z) (i : Z) : option Z :=
  if 0 <=? i then a !! Z.to_nat i else None.

(** The cache update:
<<
samples[next_sample] = sensor_value;
++next_sample;
samples_to_average = min(samples_to_average + 1, MAX_SAMPLES);
if (next_sample >= MAX_SAMPLES) { next_sample = 0; }
>> *)
Definition update_cache (g : globals) (sensor_value : Z) : option globals :=
  a ← array_store (samples g) (next_sample g) sensor_value;
  n ← int_checked (next_sample g + 1);
  c ← int_checked (samples_to_average g + 1);
  Some {| timing_of := timing_of g;
          samples := a;
          next_sample := if n >=? MAX_SAMPLES then 0 else n;
          samples_to_average := c_min c MAX_SAMPLES |}.

(** [for (int i = 0; i < samples_to_average; ++i) { sum += samples[i]; }]
    with [todo] iterations left, the next one at index [i]. *)
Fixpoint sum_from (a : list Z) (todo : nat) (i : Z) (sum : float) : option float :=
  match todo with
  | O => Some sum
  | S todo' =>
      v ← array_load a i;
      sum_from a todo' (i + 1) (fadd sum (float_of_int v))
  end.

(** [float sum = 0.0; for ...; float average_sensor_value = sum / samples_to_average;] *)
Definition average_sensor_value (g : globals) : option float :=
  sum ← sum_from (samples g) (Z.to_nat (samples_to_average g)) 0 fzero;
  Some (fdiv sum (float_of_int (samples_to_average g))).

(** One call of [loop()]: [millis] is what [millis()] returns, [sensor]
    what [analogRead(A1)] returns when it is called.  [None] when the
    tick steps outside the sample array or overflows a counter. *)
Definition loop (g : globals) (millis sensor : Z) : option (globals * list event) :=
  let current_time_ms := to_uint millis in
  let diag := diagnostics (timing_of g) current_time_ms in
  if not_yet (timing_of g) current_time_ms then Some (g, diag)
  else
    let sensor_value := sensor in
    g1 ← update_cache g sensor_value;
    average ← average_sensor_value g1;
    let gallons := estimate_gallons_remaining_from_reading average in
    let num_blocks := get_num_display_blocks_for_gallons gallons in
    Some ({| timing_of := sampled_at (timing_of g) current_time_ms;
             samples := samples g1;
             next_sample := next_sample g1;
             samples_to_average := samples_to_average g1 |},
          diag ++ [ passed; AnalogRead A1 sensor_value;
                    ShowGasMeter num_blocks;
                    ShowGasStatsRow 1 (float_to_int average) gallons ]).

Fixpoint run (g : globals) (polls : list (Z * Z)) : option (globals * list event) :=
  match polls with
  | [] => Some (g, [])
  | (millis, sensor) :: rest =>
      '(g1, tr1) ← loop g millis sensor;
      '(g2, tr2) ← run g1 rest;
      Some (g2, tr1 ++ tr2)
  end.

Fixpoint mode_history (g : globals) (polls : list (Z * Z)) : list bool :=
  in_startup_mode (timing_of g) ::
  match polls with
  | [] => []
  | (millis, sensor) :: rest =>
      match loop g millis sensor with
      | Some (g1, _) => mode_history g1 rest
      | None => []
      end
  end.

(** The filter alone: the readings pushed one after the other. *)
Fixpoint push_all (g : globals) (readings : list Z) : option globals :=
  match readings with
  | [] => Some g
  | r :: rest => g1 ← update_cache g r; push_all g1 rest
  end.

Definition wf (g : globals) : Prop :=
  Scheduler.wf (timing_of g)
  /\ length (samples g) = Z.to_nat MAX_SAMPLES
  /\ 0 <= next_sample g < MAX_SAMPLES
  /\ 0 <= samples_to_average g <= MAX_SAMPLES.

End Gas.

(** ** Words of the specification *)

(** [clamp x lo hi]: [x] forced into [lo .. hi]. *)
Definition clamp (x lo hi : Z) : Z := Z.max lo (Z.min x hi).

(** The arithmetic mean of integer readings, as a [float]: their exact sum
    divided by their number. *)
Definition sum_Z (l : list Z) : Z := fold_right Z.add 0 l.

Definition arithmetic_mean (l : list Z) : float :=
  fdiv (float_of_int (sum_Z l)) (float_of_int (Z.of_nat (length l))).

(** How often the flag goes from [a] to [b] between consecutive entries. *)
Fixpoint count_switches (a b : bool) (l : list bool) : nat :=
  match l with
  | x :: (y :: _) as rest =>
      (if Bool.eqb x a && Bool.eqb y b then 1 else 0)%nat + count_switches a b rest
  | _ => O
  end.

(** The value of the finite float [f] is within [tol] of [v]. *)
Definition approx (f : float) (v tol : Q) : Prop :=
  match to_Q f with
  | Some q => (Qabs (q - v) <= tol)%Q
  | None => False
  end.

(** The readings a trace took from the sensor, and the sensor values it
    handed to [show_gas_stats] in the filtered sketch. *)
Definition sensor_reads (tr : list event) : list Z :=
  flat_map (fun e => match e with AnalogRead _ v => [v] | _ => [] end) tr.

Definition stats_sensor_values (tr : list event) : list (option Z) :=
  flat_map (fun e => match e with ShowGasStatsRow _ v _ => [v] | _ => [] end) tr.

(** The block count the unfiltered sketch displays for a raw reading. *)
Definition ohm_blocks (reading : Z) : option Z :=
  (Ohm.get_gallons_for_ohmage <$> Ohm.estimate_ohmage_from_reading reading)
  ≫= Quantizer.get_num_display_blocks_for_gallons.

(** A value that fits the 16-bit [int]. *)
Definition int_valued (v : Z) : Prop := INT_MIN <= v <= INT_MAX.

(** The globals of the filtered sketch after the readings [vs], at most
    a buffer full of them, were pushed in order since boot. *)
Definition filled (boot : Scheduler.timing) (vs : list Z) : Gas.globals :=
  {| Gas.timing_of := boot;
     Gas.samples := vs ++ replicate (Z.to_nat Gas.MAX_SAMPLES - length vs) 0;
     Gas.next_sample :=
       if Z.of_nat (length vs) >=? Gas.MAX_SAMPLES then 0 else Z.of_nat (length vs);
     Gas.samples_to_average := Z.of_nat (length vs) |}.

(** A tick samples when it reads the sensor, renders when it calls the display. *)
Definition sampled (tr : list event) : bool := existsb is_sensor_read tr.
Definition rendered (tr : list event) : bool := existsb is_render tr.

(** A qualifying time delta at clock value [cur]: the clock has wrapped
    below the last sample time, or the time elapsed since then reaches the
    interval of the current mode. *)
Definition qualifying (t : Scheduler.timing) (cur : Z) : Prop :=
  cur < Scheduler.last_update_time_ms t
  \/ (Scheduler.last_update_time_ms t <= cur
      /\ Scheduler.interval_ms (Scheduler.in_startup_mode t)
         <= cur - Scheduler.last_update_time_ms t).

(** A history that starts in normal mode and never leaves it has no switch;
    one that may leave startup mode once has at most that switch. *)
Inductive one_way : list bool -> Prop :=
  | one_way_single b : one_way [b]
  | one_way_startup l : one_way (true :: l) -> one_way (true :: true :: l)
  | one_way_switch l : one_way (false :: l) -> one_way (true :: false :: l)
  | one_way_normal l : one_way (false :: l) -> one_way (false :: false :: l).

(** ** The display functions (both sketches, same text, and [show_gas_stats]
    of each) *)

Module Lcd.

(** What the LiquidCrystal object is asked to do. *)
Inductive lcd_op : Type :=
  | SetCursor (col row : Z)
  | LcdWrite (cell : Z).

Definition INVERSE_G : Z := 0.
Definition INVERSE_A : Z := 1.
Definition INVERSE_S : Z := 2.
Definition FILLED_BLOCK : Z := 255.
Definition EMPTY_BLOCK : Z := 32.
Definition OHMS : Z := 244.

(** Conversion to [uint8_t]. *)
Definition to_uint8 (z : Z) : Z := z mod 256.

(** ASCII codes of the character literals the sketches write. *)
Definition char_G : Z := 71.
Definition char_A : Z := 65.
Definition char_S : Z := 83.
Definition char_g : Z := 103.
Definition char_point : Z := 46.
Definition char_0 : Z := 48.

(** [for (uint8_t col = ...; col < bound; ++col) { lcd.write(cell); }] from
    the current value of [col]: the counter is promoted to [int] for the
    comparison and wraps at 256 when incremented.  [None] when [fuel]
    iterations do not reach the end of the loop. *)
Fixpoint write_cols (fuel : nat) (col bound cell : Z) : option (list lcd_op) :=
  match fuel with
  | O => None
  | S fuel' =>
      if col <? bound
      then rest ← write_cols fuel' (to_uint8 (col + 1)) bound cell;
           Some (LcdWrite cell :: rest)
      else Some []
  end.

(** [void show_gas_meter(int num_blocks)] *)
Definition show_gas_meter (fuel : nat) (num_blocks : Z) : option (list lcd_op) :=
  if num_blocks <? 8
  then
    filled ← write_cols fuel (to_uint8 0) num_blocks FILLED_BLOCK;
    blank ← write_cols fuel (to_uint8 num_blocks) 13 EMPTY_BLOCK;
    Some (SetCursor 0 0 :: filled ++ blank
          ++ [LcdWrite char_G; LcdWrite char_A; LcdWrite char_S])
  else
    filled ← write_cols fuel (to_uint8 3) num_blocks FILLED_BLOCK;
    blank ← write_cols fuel (to_uint8 num_blocks) 16 EMPTY_BLOCK;
    Some (SetCursor 0 0
          :: [LcdWrite INVERSE_G; LcdWrite INVERSE_A; LcdWrite INVERSE_S]
          ++ filled ++ blank).

(** [int placeval = 1; for (int power = 0; power < i; ++power) { placeval *= 10; }] *)
Fixpoint place_value (i : nat) : option Z :=
  match i with
  | O => Some 1
  | S i' => p ← place_value i'; int_checked (p * 10)
  end.

(** The body of the outer loop of [print_number] for [i = todo - 1] down
    to 0:
<<
    int this_digit = residue / placeval;
    lcd.write('0'+this_digit);
    residue = residue - (this_digit * placeval);
    if (radix == i) { lcd.write('.'); }
>> *)
Fixpoint print_places (todo : nat) (residue radix : Z) : option (list lcd_op) :=
  match todo with
  | O => Some []
  | S i =>
      placeval ← place_value i;
      let this_digit := Z.quot residue placeval in
      code ← int_checked (char_0 + this_digit);
      scaled ← int_checked (this_digit * placeval);
      residue' ← int_checked (residue - scaled);
      rest ← print_places i residue' radix;
      Some (LcdWrite (to_uint8 code)
            :: (if radix =? Z.of_nat i then [LcdWrite char_point] else [])
            ++ rest)
  end.

(** [void print_number(int number, int digits, int radix)] *)
Definition print_number (number digits radix : Z) : option (list lcd_op) :=
  print_places (Z.to_nat digits) number radix.

(** What [setup()] asks for, in order. *)
Inductive setup_call : Type :=
  | CreateChar (slot : Z) (rows : list Z)
  | LcdBegin (cols rows : Z)
  | SerialBegin (baud : Z).

(** The glyph tables, each row a 5-bit pattern ([B10001] is 17, ...). *)
Definition inverse_g_def : list Z := [17; 14; 15; 8; 14; 14; 16; 31].
Definition inverse_a_def : list Z := [17; 14; 14; 14; 0; 14; 14; 31].
Definition inverse_s_def : list Z := [16; 15; 15; 17; 30; 30; 1; 31].

(** [void setup()] *)
Definition setup_calls : list setup_call :=
  [ CreateChar INVERSE_G inverse_g_def;
    CreateChar INVERSE_A inverse_a_def;
    CreateChar INVERSE_S inverse_s_def;
    LcdBegin 16 2;
    SerialBegin 9600 ].

End Lcd.

Module GasLcd.
Import Lcd.

(** gas-gauge.ino: [void show_gas_stats(int row, int sensor_value, float gallons)];
    [gallons*10] is converted to the [int] parameter of [print_number]. *)
Definition show_gas_stats (row sensor_value : Z) (gallons : float) : option (list lcd_op) :=
  reading ← print_number sensor_value 4 (-1);
  tenths ← float_to_int (fmul gallons (float_of_int 10));
  amount ← print_number tenths 3 1;
  Some (SetCursor 0 row :: reading ++ [LcdWrite EMPTY_BLOCK]
        ++ amount ++ [LcdWrite char_g]).

End GasLcd.

Module OhmLcd.
Import Lcd.

(** part_000: [void show_gas_stats(int sensor_value, float ohmage, float gallons)] *)
Definition show_gas_stats (sensor_value : Z) (ohmage gallons : float) : option (list lcd_op) :=
  reading ← print_number sensor_value 4 (-1);
  ohms ← float_to_int ohmage;
  resistance ← print_number ohms 4 (-1);
  tenths ← float_to_int (fmul gallons (float_of_int 10));
  amount ← print_number tenths 3 1;
  Some (SetCursor 0 1 :: reading ++ [LcdWrite EMPTY_BLOCK]
        ++ resistance ++ [LcdWrite OHMS; LcdWrite EMPTY_BLOCK]
        ++ amount ++ [LcdWrite char_g]).

End OhmLcd.

(** The cells a list of display operations writes, in order. *)
Definition cells (ops : list Lcd.lcd_op) : list Z :=
  flat_map (fun op => match op with Lcd.LcdWrite c => [c] | _ => [] end) ops.

(** The number that a row of ASCII digit cells spells, most significant
    digit first. *)
Definition digits_value (l : list Z) : Z :=
  fold_left (fun acc c => 10 * acc + (c - Lcd.char_0)) l 0.

Definition is_digit_cell (c : Z) : Prop := Lcd.char_0 <= c <= Lcd.char_0 + 9.

(** The glyph slots [setup()] defines. *)
Definition defined_slots (calls : list Lcd.setup_call) : list Z :=
  flat_map (fun c => match c with Lcd.CreateChar s _ => [s] | _ => [] end) calls.

(** The columns [setup()] configures. *)
Definition configured_columns (calls : list Lcd.setup_call) : list Z :=
  flat_map (fun c => match c with Lcd.LcdBegin cols _ => [cols] | _ => [] end) calls.

(** The sensor reads and display calls of a trace. *)
Definition io_events (tr : list event) : list event :=
  List.filter (fun e => is_sensor_read e || is_render e) tr.

(** A trace in which every display update is one sensor read followed by
    the meter call and the stats call. *)
Inductive read_then_render : list event -> Prop :=
  | rtr_nil : read_then_render []
  | rtr_ohm p v n s o g rest :
      read_then_render rest ->
      read_then_render (AnalogRead p v :: ShowGasMeter n :: ShowGasStatsOhm s o g :: rest)
  | rtr_gas p v n r s g rest :
      read_then_render rest ->
      read_then_render (AnalogRead p v :: ShowGasMeter n :: ShowGasStatsRow r s g :: rest).

(** The last [n] entries of a list. *)
Definition last_n {A} (n : nat) (l : list A) : list A := drop (length l - n) l.

(** The cells of a number field: the digit cells [ds], most significant
    first, with the decimal point after the digit of place [radix]. *)
Fixpoint place_point (radix : Z) (ds : list Z) : list Z :=
  match ds with
  | [] => []
  | d :: rest =>
      d :: (if radix =? Z.of_nat (length rest) then [Lcd.char_point] else [])
      ++ place_point radix rest
  end.

(** The digit cells of [n] over [places] places, by truncating division. *)
Fixpoint digit_cells (places : nat) (n : Z) : list Z :=
  match places with
  | O => []
  | S i =>
      (Lcd.char_0 + Z.quot n (10 ^ Z.of_nat i))
      :: digit_cells i (Z.rem n (10 ^ Z.of_nat i))
  end.

(** A window of readings as the ring buffer holds it once [k] cells have
    been overwritten since the write index last wrapped: the newest [k]
    readings first, then the older ones. *)
Definition rotated (k : nat) (w : list Z) : list Z :=
  drop (length w - k) w ++ take (length w - k) w.

(** The globals of the filtered sketch in terms of the history [h] of the
    buffer: its 100 initial zeros followed by all readings pushed so far. *)
Definition ring_state (boot : Scheduler.timing) (h : list Z) : Gas.globals :=
  let pushed := (length h - 100)%nat in
  {| Gas.timing_of := boot;
     Gas.samples := rotated (pushed mod 100) (last_n 100 h);
     Gas.next_sample := Z.of_nat (pushed mod 100);
     Gas.samples_to_average := Z.of_nat (Nat.min pushed 100) |}.

(** Equality test on floats (same sign, mantissa and exponent). *)
Definition float_eqb (a b : float) : bool :=
  match a, b with
  | S754_zero s, S754_zero t => Bool.eqb s t
  | S754_finite s m e, S754_finite t n f => Bool.eqb s t && Pos.eqb m n && Z.eqb e f
  | _, _ => false
  end.

(** What the filtered sketch reads and displays when the sensor stays at
    [r]: every read returns [r], and every display call gets the block
    count, the sensor value and the gallons of [r] itself. *)
Definition shows_reading (r : Z) (e : event) : Prop :=
  let gallons := Gas.estimate_gallons_remaining_from_reading (float_of_int r) in
  match e with
  | AnalogRead p v => p = A1 /\ v = r
  | ShowGasMeter n => n = Quantizer.get_num_display_blocks_for_gallons gallons
  | ShowGasStatsRow row v g => row = 1 /\ v = Some r /\ g = gallons
  | ShowGasStatsOhm _ _ _ => False
  | _ => True
  end.

(** Globals of the filtered sketch whose valid entries all hold [r], the
    buffer being filled from index 0 until it is full. *)
Definition steady (r : Z) (g : Gas.globals) : Prop :=
  Gas.wf g
  /\ (Gas.samples_to_average g < Gas.MAX_SAMPLES -> Gas.next_sample g = Gas.samples_to_average g)
  /\ Forall (fun v => v = r) (take (Z.to_nat (Gas.samples_to_average g)) (Gas.samples g))
  /\ Forall int_valued (Gas.samples g).

(** The serial diagnostics of a trace. *)
Definition serial_log (tr : list event) : list event := List.filter is_diagnostic tr.

(** The block count the filtered sketch displays for an average that is
    the integer [reading]. *)
Definition gas_blocks (reading : Z) : option Z :=
  Quantizer.get_num_display_blocks_for_gallons
    (Gas.estimate_gallons_remaining_from_reading (float_of_int reading)).

(** * Properties *)

(** ** Integers, truncation and the order of floats *)

Lemma c_min_is_min a b : c_min a b = Z.min a b.
Proof. unfold c_min. destruct (Z.ltb_spec a b); lia. Qed.

Lemma c_max_is_max a b : c_max a b = Z.max a b.
Proof.
  unfold c_max. rewrite Z.gtb_ltb. destruct (Z.ltb_spec b a); lia.
Qed.

Lemma int_checked_Some z :
  INT_MIN <= z <= INT_MAX -> int_checked z = Some z.
Proof.
  intros [Hlo Hhi]. unfold int_checked, in_int_range.
  apply Z.leb_le in Hlo. apply Z.leb_le in Hhi. now rewrite Hlo, Hhi.
Qed.

Lemma int_checked_None z :
  z < INT_MIN \/ INT_MAX < z -> int_checked z = None.
Proof.
  unfold int_checked, in_int_range. intros Hz.
  destruct (Z.leb_spec INT_MIN z) as [Hlo | Hlo], (Z.leb_spec z INT_MAX) as [Hhi | Hhi];
    simpl; auto; lia.
Qed.

Lemma int_checked_inv z r : int_checked z = Some r -> r = z /\ INT_MIN <= z <= INT_MAX.
Proof.
  unfold int_checked, in_int_range.
  destruct (Z.leb_spec INT_MIN z) as [Hlo | Hlo], (Z.leb_spec z INT_MAX) as [Hhi | Hhi];
    simpl; intros E; inversion E; subst; lia.
Qed.

Lemma cond_Zopp_mul s a b : cond_Zopp s a * b = cond_Zopp s (a * b).
Proof. destruct s; simpl; lia. Qed.

Lemma cond_Zopp_quot s a b : b <> 0 -> Z.quot (cond_Zopp s a) b = cond_Zopp s (Z.quot a b).
Proof. intros Hb. destruct s; simpl; [now apply Z.quot_opp_l | reflexivity]. Qed.

(** [ftrunc] cuts the value of the float toward zero. *)
Lemma ftrunc_to_Q f q : to_Q f = Some q -> ftrunc f = Some (Qtrunc q).
Proof.
  destruct f as [s | s | | s m e]; simpl; try discriminate.
  - intros H; inversion H; reflexivity.
  - intros H; inversion H; subst q; clear H. f_equal.
    destruct e as [| p | p]; unfold Qtrunc; cbn [Qnum Qden].
    + now rewrite Z.quot_1_r.
    + rewrite Z.quot_1_r, cond_Zopp_mul.
      rewrite Z.shiftl_mul_pow2 by lia. now rewrite Z.pow_pos_fold.
    + rewrite cond_Zopp_quot by lia. f_equal.
      rewrite Z.quot_div_nonneg by lia.
      change (Z.shiftl (Z.pos m) (Z.neg p)) with (Z.shiftr (Z.pos m) (Z.pos p)).
      rewrite Z.shiftr_div_pow2 by lia. now rewrite Pos2Z.inj_pow.
Qed.

Lemma Qtrunc_inject n : Qtrunc (inject_Z n) = n.
Proof. unfold Qtrunc, inject_Z; simpl. apply Z.quot_1_r. Qed.

Lemma quot_bounds a b :
  0 < b ->
  exists r, a = b * Z.quot a b + r /\ (0 <= a -> 0 <= r < b) /\ (a < 0 -> - b < r <= 0).
Proof.
  intros Hb. exists (Z.rem a b). split; [apply Z.quot_rem' |].
  split; intros; [apply Z.rem_bound_pos | apply Z.rem_bound_pos_neg]; lia.
Qed.

Lemma quot_mono_pos a b c d :
  0 < b -> 0 < d -> a * d <= c * b -> Z.quot a b <= Z.quot c d.
Proof.
  intros Hb Hd H.
  destruct (quot_bounds a b Hb) as (ra & Ea & Ra).
  destruct (quot_bounds c d Hd) as (rc & Ec & Rc).
  set (qa := Z.quot a b) in *. set (qc := Z.quot c d) in *. clearbody qa qc.
  destruct (Z.le_gt_cases qa qc) as [|Hgt]; [assumption | exfalso].
  assert (H1 : b * d * (qc + 1) <= b * d * qa) by (apply Z.mul_le_mono_nonneg_l; nia).
  assert (H2 : ra * d - rc * b <= b * d * qc - b * d * qa) by nia.
  destruct (Z.le_gt_cases 0 a) as [Ha | Ha], (Z.le_gt_cases 0 c) as [Hc | Hc].
  - assert (- (b * d) < ra * d - rc * b) by nia. nia.
  - nia.
  - assert (qa <= 0) by nia. assert (0 <= qc) by nia. lia.
  - assert (- (b * d) < ra * d - rc * b) by nia. nia.
Qed.

Lemma Qtrunc_mono a b : (a <= b)%Q -> Qtrunc a <= Qtrunc b.
Proof.
  unfold Qle, Qtrunc. intros H. apply quot_mono_pos; lia.
Qed.

Lemma Qtrunc_lt q n : 0 < n -> (q < inject_Z n)%Q -> Qtrunc q < n.
Proof.
  unfold Qlt, Qtrunc, inject_Z; cbn [Qnum Qden]. intros Hn H.
  destruct (quot_bounds (Qnum q) (Z.pos (Qden q)) ltac:(lia)) as (r & E & Rp & Rn).
  set (t := Z.quot _ _) in *. clearbody t.
  set (a := Qnum q) in *. set (b := Z.pos (Qden q)) in *.
  assert (Hb : 0 < b) by (subst b; lia). clearbody a b.
  destruct (Z.lt_ge_cases t n) as [|Hge]; [assumption | exfalso].
  assert (b * n <= b * t) by (apply Z.mul_le_mono_nonneg_l; lia).
  destruct (Z.le_gt_cases 0 a) as [Ha | Ha]; nia.
Qed.

Lemma Qtrunc_gt q n : n < 0 -> (inject_Z n < q)%Q -> n < Qtrunc q.
Proof.
  unfold Qlt, Qtrunc, inject_Z; cbn [Qnum Qden]. intros Hn H.
  destruct (quot_bounds (Qnum q) (Z.pos (Qden q)) ltac:(lia)) as (r & E & Rp & Rn).
  set (t := Z.quot _ _) in *. clearbody t.
  set (a := Qnum q) in *. set (b := Z.pos (Qden q)) in *.
  assert (Hb : 0 < b) by (subst b; lia). clearbody a b.
  destruct (Z.lt_ge_cases n t) as [|Hge]; [assumption | exfalso].
  assert (b * t <= b * n) by (apply Z.mul_le_mono_nonneg_l; lia).
  destruct (Z.le_gt_cases 0 a) as [Ha | Ha]; nia.
Qed.

Lemma Qtrunc_ge q n : (inject_Z n <= q)%Q -> n <= Qtrunc q.
Proof. intros H. rewrite <- (Qtrunc_inject n). now apply Qtrunc_mono. Qed.

(** ** The display quantizer *)

Section QuantizerFacts.
Import Quantizer.

Lemma blocks_of_floor g z :
  ftrunc g = Some z -> INT_MIN + 2 <= z <= INT_MAX ->
  get_num_display_blocks_for_gallons g = Some (clamp (z - 2) 0 16).
Proof.
  intros Hz Hr. unfold get_num_display_blocks_for_gallons, float_to_int.
  rewrite Hz. simpl.
  rewrite int_checked_Some by (unfold INT_MIN, INT_MAX in *; lia). simpl.
  rewrite int_checked_Some by (unfold INT_MIN, INT_MAX in *; lia). simpl.
  now rewrite c_min_is_min, c_max_is_max.
Qed.

Lemma blocks_inv g n :
  get_num_display_blocks_for_gallons g = Some n ->
  exists z, ftrunc g = Some z /\ INT_MIN + 2 <= z <= INT_MAX /\ n = clamp (z - 2) 0 16.
Proof.
  unfold get_num_display_blocks_for_gallons, float_to_int.
  destruct (ftrunc g) as [z |]; simpl; [| discriminate].
  destruct (int_checked z) as [z' |] eqn:E1; simpl; [| discriminate].
  apply int_checked_inv in E1 as [-> Hz].
  destruct (int_checked (z - 2)) as [d |] eqn:E2; simpl; [| discriminate].
  apply int_checked_inv in E2 as [-> Hd].
  intros H; inversion H. exists z. rewrite c_min_is_min, c_max_is_max.
  unfold clamp, INT_MIN, INT_MAX in *. repeat split; lia.
Qed.

Lemma blocks_in_range g n :
  get_num_display_blocks_for_gallons g = Some n -> 0 <= n <= 16.
Proof.
  intros H. apply blocks_inv in H as (z & _ & _ & ->). unfold clamp. lia.
Qed.

Lemma floor_in_int_range q :
  (inject_Z (-32767) < q)%Q -> (q < inject_Z 32768)%Q ->
  INT_MIN + 2 <= Qtrunc q <= INT_MAX.
Proof.
  intros Hlo Hhi. apply Qtrunc_gt in Hlo; [| lia]. apply Qtrunc_lt in Hhi; [| lia].
  unfold INT_MIN, INT_MAX. lia.
Qed.

End QuantizerFacts.

Ltac q_decide := unfold Qle, Qlt, inject_Z; cbn [Qnum Qden]; lia.

(** C3 (amended).  For every finite gallons input whose value lies strictly
    between -32767 and 32768 (so that its integer part, less the margin of
    2, fits the 16-bit [int]), the quantizer returns
    clamp(truncate-toward-zero(gallons) - 2, 0, 16); among these inputs,
    those below 3 gallons give 0 blocks and those of at least 18 gallons
    give 16 blocks. *)
Theorem quantizer_is_clamped_floor (g : float) (q : Q) :
  to_Q g = Some q ->
  (inject_Z (-32767) < q)%Q -> (q < inject_Z 32768)%Q ->
  Quantizer.get_num_display_blocks_for_gallons g = Some (clamp (Qtrunc q - 2) 0 16)
  /\ ((q < inject_Z 3)%Q -> Quantizer.get_num_display_blocks_for_gallons g = Some 0)
  /\ ((inject_Z 18 <= q)%Q -> Quantizer.get_num_display_blocks_for_gallons g = Some 16).
Proof.
  intros Hq Hlo Hhi.
  pose proof (floor_in_int_range q Hlo Hhi) as Hr.
  pose proof (blocks_of_floor g (Qtrunc q) (ftrunc_to_Q g q Hq) Hr) as E.
  split; [exact E |]. split; intros Hb; rewrite E; f_equal; unfold clamp.
  - apply Qtrunc_lt in Hb; lia.
  - apply Qtrunc_ge in Hb. unfold INT_MAX in Hr. lia.
Qed.

Lemma quantizer_is_clamped_floor_witness :
  (exists q, to_Q (decimal 29 10) = Some q /\ (inject_Z (-32767) < q)%Q
             /\ (q < inject_Z 3)%Q
             /\ Quantizer.get_num_display_blocks_for_gallons (decimal 29 10) = Some 0)
  /\ (exists q, to_Q (float_of_int 19) = Some q /\ (inject_Z 18 <= q)%Q
                /\ (q < inject_Z 32768)%Q
                /\ Quantizer.get_num_display_blocks_for_gallons (float_of_int 19) = Some 16).
Proof.
  split.
  - eexists. split; [vm_compute; reflexivity |].
    split; [q_decide |]. split; [q_decide |].
    eapply (quantizer_is_clamped_floor (decimal 29 10));
      [vm_compute; reflexivity | q_decide | q_decide | q_decide].
  - eexists. split; [vm_compute; reflexivity |].
    split; [q_decide |]. split; [q_decide |].
    eapply (quantizer_is_clamped_floor (float_of_int 19));
      [vm_compute; reflexivity | q_decide | q_decide | q_decide].
Defined.

(** C3 as stated fails beyond the [int] range: ten thousand million gallons
    is an input of at least 18 gallons, yet the cast [(int)gallons] has no
    defined value there, so the quantizer yields neither 16 nor the clamped
    floor. *)
Lemma quantizer_beyond_int_range :
  let g := float_of_int 10000000000 in
  exists q, to_Q g = Some q /\ (inject_Z 18 <= q)%Q
            /\ clamp (Qtrunc q - 2) 0 16 = 16
            /\ Quantizer.get_num_display_blocks_for_gallons g = None
            /\ Quantizer.get_num_display_blocks_for_gallons g
               <> Some (clamp (Qtrunc q - 2) 0 16).
Proof.
  eexists. split; [vm_compute; reflexivity |].
  split; [q_decide |]. split; [vm_compute; reflexivity |].
  split; [vm_compute; reflexivity | vm_compute; discriminate].
Qed.

(** C4 (amended).  For every pair of finite gallons inputs x <= y whose
    values lie strictly between -32767 and 32768, the quantizer returns a
    count for both and segments(x) <= segments(y), negative inputs
    included; and every count the quantizer returns, for any input, lies
    in [0, 16]. *)
Theorem quantizer_monotone_bounded (x y : float) (qx qy : Q) :
  to_Q x = Some qx -> to_Q y = Some qy ->
  (inject_Z (-32767) < qx)%Q -> (qy < inject_Z 32768)%Q ->
  fle x y ->
  (exists nx ny,
      Quantizer.get_num_display_blocks_for_gallons x = Some nx
      /\ Quantizer.get_num_display_blocks_for_gallons y = Some ny
      /\ nx <= ny)
  /\ (forall g n, Quantizer.get_num_display_blocks_for_gallons g = Some n -> 0 <= n <= 16).
Proof.
  intros Hx Hy Hlo Hhi Hle. unfold fle in Hle. rewrite Hx, Hy in Hle.
  split; [| exact blocks_in_range].
  assert (Hxhi : (qx < inject_Z 32768)%Q) by (eapply Qle_lt_trans; eassumption).
  assert (Hylo : (inject_Z (-32767) < qy)%Q) by (eapply Qlt_le_trans; eassumption).
  pose proof (floor_in_int_range qx Hlo Hxhi) as Rx.
  pose proof (floor_in_int_range qy Hylo Hhi) as Ry.
  exists (clamp (Qtrunc qx - 2) 0 16), (clamp (Qtrunc qy - 2) 0 16).
  split; [apply blocks_of_floor; [now apply ftrunc_to_Q | exact Rx] |].
  split; [apply blocks_of_floor; [now apply ftrunc_to_Q | exact Ry] |].
  apply Qtrunc_mono in Hle. unfold clamp. lia.
Qed.

Lemma quantizer_monotone_bounded_witness :
  let x := fneg (decimal 5 10) in
  let y := decimal 75 10 in
  fle x y
  /\ Quantizer.get_num_display_blocks_for_gallons x = Some 0
  /\ Quantizer.get_num_display_blocks_for_gallons y = Some 5
  /\ exists nx ny,
      Quantizer.get_num_display_blocks_for_gallons x = Some nx
      /\ Quantizer.get_num_display_blocks_for_gallons y = Some ny
      /\ nx <= ny.
Proof.
  split; [vm_compute; discriminate |].
  split; [vm_compute; reflexivity |]. split; [vm_compute; reflexivity |].
  eapply (quantizer_monotone_bounded (fneg (decimal 5 10)) (decimal 75 10));
    [vm_compute; reflexivity | vm_compute; reflexivity
    | q_decide | q_decide | vm_compute; discriminate].
Defined.

(** C4 as stated fails beyond the [int] range: 20 gallons is below ten
    thousand million gallons, the first gets 16 blocks and the second gets
    no defined count at all, so no count in [0, 16] exists for it. *)
Lemma quantizer_no_count_beyond_int_range :
  let x := float_of_int 20 in
  let y := float_of_int 10000000000 in
  fle x y
  /\ Quantizer.get_num_display_blocks_for_gallons x = Some 16
  /\ ~ (exists ny, Quantizer.get_num_display_blocks_for_gallons y = Some ny
                   /\ 16 <= ny /\ 0 <= ny <= 16).
Proof.
  split; [vm_compute; discriminate |]. split; [vm_compute; reflexivity |].
  intros (ny & E & _). vm_compute in E. discriminate.
Qed.

(** ** The sample scheduler *)

Section SchedulerFacts.
Import Scheduler.

Lemma to_uint_range z : 0 <= to_uint z < UINT_MODULUS.
Proof. unfold to_uint, UINT_MODULUS. apply Z.mod_pos_bound. lia. Qed.

Lemma delta_ms_wrapped t cur :
  cur < last_update_time_ms t -> delta_ms t cur = 30000.
Proof. intros H. unfold delta_ms. apply Z.ltb_lt in H. now rewrite H. Qed.

Lemma delta_ms_elapsed t cur :
  wf t -> last_update_time_ms t <= cur < UINT_MODULUS ->
  delta_ms t cur = cur - last_update_time_ms t.
Proof.
  intros [_ Hl] Hc. unfold delta_ms, uint_sub.
  destruct (Z.ltb_spec cur (last_update_time_ms t)); [lia |].
  apply Z.mod_small. lia.
Qed.

Lemma due_qualifying t cur :
  wf t -> 0 <= cur < UINT_MODULUS -> due t cur = true <-> qualifying t cur.
Proof.
  intros Hwf Hc. unfold due, not_yet, qualifying.
  change (to_uint STARTUP_SAMPLE_RATE_MS) with 500.
  change (to_uint (NORMAL_SAMPLE_RATE_S * 1000)) with 5000.
  destruct (Z.lt_ge_cases cur (last_update_time_ms t)) as [Hw | Hn].
  - rewrite (delta_ms_wrapped _ _ Hw). simpl. rewrite andb_false_r. simpl.
    split; [left; assumption | reflexivity].
  - rewrite (delta_ms_elapsed t cur Hwf) by lia.
    set (d := cur - last_update_time_ms t).
    unfold interval_ms, STARTUP_SAMPLE_RATE_MS, NORMAL_SAMPLE_RATE_S.
    destruct (in_startup_mode t); simpl;
      destruct (Z.ltb_spec d 500) as [H5 | H5], (Z.ltb_spec d 5000) as [H50 | H50];
      simpl; split; intros Hq; try discriminate; try reflexivity; try lia;
      try (right; lia); destruct Hq as [Hq | Hq]; lia.
Qed.

Lemma due_not_yet t cur : due t cur = negb (not_yet t cur).
Proof. reflexivity. Qed.

Lemma switch_mode_stays_normal t cur :
  in_startup_mode t = false -> switch_mode t cur = false.
Proof. intros H. unfold switch_mode. now rewrite H. Qed.

Lemma switch_mode_cleared t cur :
  in_startup_mode t = true -> switch_mode t cur = false ->
  STARTUP_SAMPLE_DURATION_S * 1000 <= time_since_boot_ms t cur.
Proof.
  intros H. unfold switch_mode. rewrite H.
  change (to_uint (STARTUP_SAMPLE_DURATION_S * 1000)) with (STARTUP_SAMPLE_DURATION_S * 1000).
  intros E. apply Z.ltb_ge in E. exact E.
Qed.

Lemma wf_at_boot millis : wf (at_boot millis).
Proof. split; apply to_uint_range. Qed.

Lemma wf_sampled_at t millis : wf t -> wf (sampled_at t (to_uint millis)).
Proof. intros [Hb _]. split; [exact Hb | apply to_uint_range]. Qed.

Lemma diagnostics_only t cur : forallb is_diagnostic (diagnostics t cur) = true.
Proof. reflexivity. Qed.

Lemma diagnostics_not_sampled t cur : sampled (diagnostics t cur) = false.
Proof. reflexivity. Qed.

Lemma diagnostics_not_rendered t cur : rendered (diagnostics t cur) = false.
Proof. reflexivity. Qed.

End SchedulerFacts.

(** ** The flag histories *)

Lemma count_switches_cons a b x y l :
  count_switches a b (x :: y :: l)
  = ((if Bool.eqb x a && Bool.eqb y b then 1 else 0) + count_switches a b (y :: l))%nat.
Proof. reflexivity. Qed.

Lemma one_way_counts l :
  one_way l ->
  (count_switches true false l <= 1)%nat
  /\ count_switches false true l = O
  /\ (forall l', l = false :: l' -> count_switches true false l = O).
Proof.
  induction 1 as [b | l H IH | l H IH | l H IH].
  - simpl. repeat split; auto.
  - rewrite !count_switches_cons. destruct IH as (A & B & C).
    cbn [Bool.eqb andb]. repeat split; auto. intros l' E. discriminate.
  - rewrite !count_switches_cons. destruct IH as (A & B & C).
    rewrite (C l eq_refl), B. cbn [Bool.eqb andb].
    repeat split; auto. intros l' E. discriminate.
  - rewrite !count_switches_cons. destruct IH as (A & B & C).
    rewrite (C l eq_refl), B. cbn [Bool.eqb andb]. repeat split; auto.
Qed.

(** ** One tick of the unfiltered sketch *)

Section OhmFacts.
Import Scheduler Ohm.

Lemma ohm_loop_idle g millis sensor :
  not_yet g (to_uint millis) = true ->
  loop g millis sensor = (g, diagnostics g (to_uint millis)).
Proof. intros H. unfold loop. now rewrite H. Qed.

Lemma ohm_loop_due g millis sensor :
  not_yet g (to_uint millis) = false ->
  loop g millis sensor
  = (sampled_at g (to_uint millis),
     diagnostics g (to_uint millis)
     ++ [ passed; AnalogRead A0 sensor;
          ShowGasMeter ((get_gallons_for_ohmage <$> estimate_ohmage_from_reading sensor)
                        ≫= Quantizer.get_num_display_blocks_for_gallons);
          ShowGasStatsOhm sensor (estimate_ohmage_from_reading sensor)
            (get_gallons_for_ohmage <$> estimate_ohmage_from_reading sensor) ]).
Proof. intros H. unfold loop. now rewrite H. Qed.

Lemma ohm_sampled_iff_due g millis sensor :
  sampled (snd (loop g millis sensor)) = due g (to_uint millis).
Proof.
  unfold due. destruct (not_yet g (to_uint millis)) eqn:E.
  - now rewrite ohm_loop_idle.
  - rewrite ohm_loop_due by assumption. reflexivity.
Qed.

Lemma ohm_loop_wf g millis sensor : wf g -> wf (fst (loop g millis sensor)).
Proof.
  intros H. destruct (not_yet g (to_uint millis)) eqn:E.
  - now rewrite ohm_loop_idle.
  - rewrite ohm_loop_due by assumption. now apply wf_sampled_at.
Qed.

Lemma ohm_run_idle g polls :
  sampled (snd (run g polls)) = false -> fst (run g polls) = g.
Proof.
  revert g. induction polls as [| [millis sensor] rest IH]; intros g; [reflexivity |].
  cbn [run]. pose proof (ohm_sampled_iff_due g millis sensor) as Hs.
  destruct (loop g millis sensor) as [g1 tr1] eqn:E1.
  destruct (run g1 rest) as [g2 tr2] eqn:E2. cbn [fst snd] in *.
  unfold sampled in *. rewrite existsb_app. intros H.
  apply orb_false_iff in H as [H1 H2].
  rewrite H1 in Hs. symmetry in Hs. unfold due in Hs. apply negb_false_iff in Hs.
  rewrite ohm_loop_idle in E1 by assumption. inversion E1; subst g1.
  specialize (IH g). rewrite E2 in IH. now apply IH.
Qed.

Lemma ohm_history_one_way g polls : one_way (mode_history g polls).
Proof.
  revert g. induction polls as [| [millis sensor] rest IH]; intros g.
  - constructor.
  - cbn [mode_history]. specialize (IH (fst (loop g millis sensor))).
    assert (Hm : in_startup_mode g = false ->
                 in_startup_mode (fst (loop g millis sensor)) = false).
    { intros Hn. destruct (not_yet g (to_uint millis)) eqn:E.
      - now rewrite ohm_loop_idle.
      - rewrite ohm_loop_due by assumption. now apply switch_mode_stays_normal. }
    destruct rest as [| [m2 s2] rest]; cbn [mode_history] in *;
      destruct (in_startup_mode g);
      (destruct (in_startup_mode (fst (loop g millis sensor)));
       [ | ]); try (specialize (Hm eq_refl); discriminate);
      constructor; assumption.
Qed.

Lemma ohm_flag_cleared g millis sensor :
  in_startup_mode g = true ->
  in_startup_mode (fst (loop g millis sensor)) = false ->
  due g (to_uint millis) = true
  /\ STARTUP_SAMPLE_DURATION_S * 1000 <= time_since_boot_ms g (to_uint millis).
Proof.
  intros Ht Hf. unfold due. destruct (not_yet g (to_uint millis)) eqn:E.
  - rewrite ohm_loop_idle in Hf by assumption. simpl in Hf. congruence.
  - rewrite ohm_loop_due in Hf by assumption. split; [reflexivity |].
    now apply switch_mode_cleared.
Qed.

End OhmFacts.

(** ** One tick of the filtered sketch *)

Section GasFacts.
Import Scheduler Gas.

Lemma array_store_Some a i v :
  0 <= i < Z.of_nat (length a) -> array_store a i v = Some (<[Z.to_nat i := v]> a).
Proof.
  intros [H0 H1]. unfold array_store.
  apply Z.leb_le in H0. apply Z.ltb_lt in H1. now rewrite H0, H1.
Qed.

Lemma array_store_inv a i v a' :
  array_store a i v = Some a' ->
  0 <= i < Z.of_nat (length a) /\ a' = <[Z.to_nat i := v]> a.
Proof.
  unfold array_store.
  destruct (Z.leb_spec 0 i) as [H0 | H0], (Z.ltb_spec i (Z.of_nat (length a))) as [H1 | H1];
    simpl; intros E; inversion E; subst; split; auto; lia.
Qed.

Lemma array_load_Some a i :
  0 <= i < Z.of_nat (length a) -> exists v, array_load a i = Some v.
Proof.
  intros [H0 H1]. unfold array_load. apply Z.leb_le in H0 as H0'. rewrite H0'.
  destruct (lookup_lt_is_Some_2 a (Z.to_nat i)) as [v Hv]; [lia |]. now exists v.
Qed.

(** The summing loop stays inside the array when its range does. *)
Lemma sum_from_defined a todo i sum :
  0 <= i -> i + Z.of_nat todo <= Z.of_nat (length a) ->
  exists r, sum_from a todo i sum = Some r.
Proof.
  revert i sum. induction todo as [| todo IH]; intros i sum Hi Hlen.
  - now exists sum.
  - cbn [sum_from]. destruct (array_load_Some a i) as [v Hv]; [lia |].
    rewrite Hv. simpl. apply IH; lia.
Qed.

(** The cache update keeps the array, the index and the count in bounds,
    and leaves at least one valid entry. *)
Lemma update_cache_defined g sensor :
  wf g ->
  exists g1, update_cache g sensor = Some g1
    /\ timing_of g1 = timing_of g
    /\ samples g1 = <[Z.to_nat (next_sample g) := sensor]> (samples g)
    /\ next_sample g1 = (if next_sample g + 1 >=? MAX_SAMPLES then 0 else next_sample g + 1)
    /\ samples_to_average g1 = Z.min (samples_to_average g + 1) MAX_SAMPLES
    /\ length (samples g1) = Z.to_nat MAX_SAMPLES
    /\ 0 <= next_sample g1 < MAX_SAMPLES
    /\ 1 <= samples_to_average g1 <= MAX_SAMPLES.
Proof.
  intros (Ht & Hlen & Hn & Hc). unfold MAX_SAMPLES in *. unfold update_cache.
  rewrite array_store_Some by (rewrite Hlen; lia). simpl.
  rewrite int_checked_Some by (unfold INT_MIN, INT_MAX; lia). simpl.
  rewrite int_checked_Some by (unfold INT_MIN, INT_MAX; lia). simpl.
  eexists. split; [reflexivity |]. cbn [timing_of samples next_sample samples_to_average].
  rewrite c_min_is_min, length_insert, Hlen. unfold MAX_SAMPLES.
  repeat split; try lia;
    destruct (Z.geb_spec (next_sample g + 1) 100); lia.
Qed.

Lemma average_defined g :
  length (samples g) = Z.to_nat MAX_SAMPLES ->
  0 <= samples_to_average g <= MAX_SAMPLES ->
  exists sum,
    sum_from (samples g) (Z.to_nat (samples_to_average g)) 0 fzero = Some sum
    /\ average_sensor_value g
       = Some (fdiv sum (float_of_int (samples_to_average g))).
Proof.
  intros Hlen Hc. unfold MAX_SAMPLES in *.
  destruct (sum_from_defined (samples g) (Z.to_nat (samples_to_average g)) 0 fzero)
    as [sum Hs]; [lia | rewrite Hlen; lia |].
  exists sum. split; [exact Hs |]. unfold average_sensor_value. now rewrite Hs.
Qed.

Lemma gas_loop_idle g millis sensor :
  not_yet (timing_of g) (to_uint millis) = true ->
  loop g millis sensor = Some (g, diagnostics (timing_of g) (to_uint millis)).
Proof. intros H. unfold loop. now rewrite H. Qed.

Lemma gas_loop_due g millis sensor :
  wf g -> not_yet (timing_of g) (to_uint millis) = false ->
  exists g1 average,
    update_cache g sensor = Some g1
    /\ average_sensor_value g1 = Some average
    /\ loop g millis sensor
       = Some ({| timing_of := sampled_at (timing_of g) (to_uint millis);
                  samples := samples g1;
                  next_sample := next_sample g1;
                  samples_to_average := samples_to_average g1 |},
               diagnostics (timing_of g) (to_uint millis)
               ++ [ passed; AnalogRead A1 sensor;
                    ShowGasMeter
                      (Quantizer.get_num_display_blocks_for_gallons
                         (estimate_gallons_remaining_from_reading average));
                    ShowGasStatsRow 1 (float_to_int average)
                      (estimate_gallons_remaining_from_reading average) ]).
Proof.
  intros Hwf Hd.
  destruct (update_cache_defined g sensor Hwf) as (g1 & E1 & _ & _ & _ & _ & Hlen & _ & Hc).
  destruct (average_defined g1 Hlen ltac:(lia)) as (sum & _ & E2).
  exists g1, (fdiv sum (float_of_int (samples_to_average g1))).
  split; [exact E1 |]. split; [exact E2 |].
  unfold loop. rewrite Hd, E1. simpl. rewrite E2. reflexivity.
Qed.

(** A tick that returns did the early return exactly when it was not due. *)
Lemma gas_loop_inv g millis sensor g' tr :
  loop g millis sensor = Some (g', tr) ->
  (not_yet (timing_of g) (to_uint millis) = true
   /\ g' = g /\ tr = diagnostics (timing_of g) (to_uint millis))
  \/ (not_yet (timing_of g) (to_uint millis) = false
      /\ timing_of g' = sampled_at (timing_of g) (to_uint millis)
      /\ sampled tr = true /\ rendered tr = true).
Proof.
  unfold loop. destruct (not_yet (timing_of g) (to_uint millis)) eqn:E.
  - intros H. inversion H. left. auto.
  - destruct (update_cache g sensor) as [g1 |]; simpl; [| discriminate].
    destruct (average_sensor_value g1) as [avg |]; simpl; [| discriminate].
    intros H. inversion H. right. repeat split; reflexivity.
Qed.

Lemma gas_loop_wf g millis sensor :
  wf g -> exists g' tr, loop g millis sensor = Some (g', tr) /\ wf g'.
Proof.
  intros Hwf. destruct (not_yet (timing_of g) (to_uint millis)) eqn:E.
  - rewrite gas_loop_idle by assumption. eauto.
  - destruct (gas_loop_due g millis sensor Hwf E) as (g1 & avg & E1 & _ & ->).
    destruct (update_cache_defined g sensor Hwf)
      as (g1' & E1' & _ & _ & _ & _ & Hlen & Hn & Hc).
    rewrite E1 in E1'. inversion E1'; subst g1'.
    eexists _, _. split; [reflexivity |]. destruct Hwf as (Ht & _).
    split; [now apply wf_sampled_at |]. cbn. repeat split; try tauto; lia.
Qed.

Lemma wf_setup millis : wf (setup millis).
Proof.
  split; [apply wf_at_boot |]. unfold setup, MAX_SAMPLES; cbn.
  rewrite length_replicate. repeat split; lia.
Qed.

Lemma gas_run_wf g polls :
  wf g -> exists g' tr, run g polls = Some (g', tr) /\ wf g'.
Proof.
  revert g. induction polls as [| [millis sensor] rest IH]; intros g Hwf.
  - cbn. eauto.
  - cbn [run]. destruct (gas_loop_wf g millis sensor Hwf) as (g1 & tr1 & E1 & Hwf1).
    rewrite E1. simpl. destruct (IH g1 Hwf1) as (g2 & tr2 & E2 & Hwf2).
    rewrite E2. simpl. eauto.
Qed.

End GasFacts.

Section GasSchedule.
Import Scheduler Gas.

Lemma gas_sampled_iff_due g millis sensor :
  wf g ->
  exists g' tr, loop g millis sensor = Some (g', tr)
    /\ Gas.wf g'
    /\ sampled tr = due (timing_of g) (to_uint millis)
    /\ rendered tr = due (timing_of g) (to_uint millis).
Proof.
  intros Hwf. destruct (gas_loop_wf g millis sensor Hwf) as (g' & tr & E & Hwf').
  exists g', tr. split; [exact E |]. split; [exact Hwf' |]. unfold due.
  destruct (gas_loop_inv _ _ _ _ _ E) as [(-> & _ & ->) | (-> & _ & -> & ->)];
    split; reflexivity.
Qed.

Lemma gas_run_idle g polls g' tr :
  run g polls = Some (g', tr) -> sampled tr = false -> g' = g.
Proof.
  revert g g' tr. induction polls as [| [millis sensor] rest IH]; intros g g' tr.
  - cbn. intros E _. now inversion E.
  - cbn [run]. destruct (loop g millis sensor) as [[g1 tr1] |] eqn:E1; simpl; [| discriminate].
    destruct (run g1 rest) as [[g2 tr2] |] eqn:E2; simpl; [| discriminate].
    intros E Hs. inversion E; subst g' tr. unfold sampled in Hs.
    rewrite existsb_app in Hs. apply orb_false_iff in Hs as [H1 H2].
    destruct (gas_loop_inv _ _ _ _ _ E1) as [(_ & -> & _) | (_ & _ & Hs1 & _)].
    + eapply IH; eassumption.
    + unfold sampled in Hs1. congruence.
Qed.

Lemma gas_history_one_way g polls : one_way (mode_history g polls).
Proof.
  revert g. induction polls as [| [millis sensor] rest IH]; intros g.
  - constructor.
  - cbn [mode_history].
    destruct (loop g millis sensor) as [[g1 tr1] |] eqn:E1; [| constructor].
    specialize (IH g1).
    assert (Hm : in_startup_mode (timing_of g) = false ->
                 in_startup_mode (timing_of g1) = false).
    { intros Hn. destruct (gas_loop_inv _ _ _ _ _ E1) as [(_ & -> & _) | (_ & -> & _)];
        [assumption | now apply switch_mode_stays_normal]. }
    destruct rest as [| [m2 s2] rest]; cbn [mode_history] in *;
      destruct (in_startup_mode (timing_of g));
      (destruct (in_startup_mode (timing_of g1)); [ | ]);
      try (specialize (Hm eq_refl); discriminate);
      constructor; assumption.
Qed.

Lemma gas_history_length g polls :
  wf g -> length (mode_history g polls) = S (length polls).
Proof.
  revert g. induction polls as [| [millis sensor] rest IH]; intros g Hwf; [reflexivity |].
  cbn [mode_history]. destruct (gas_loop_wf g millis sensor Hwf) as (g1 & tr1 & -> & Hwf1).
  cbn [length]. now rewrite IH.
Qed.

Lemma gas_flag_cleared g millis sensor g' tr :
  loop g millis sensor = Some (g', tr) ->
  in_startup_mode (timing_of g) = true ->
  in_startup_mode (timing_of g') = false ->
  due (timing_of g) (to_uint millis) = true
  /\ STARTUP_SAMPLE_DURATION_S * 1000 <= time_since_boot_ms (timing_of g) (to_uint millis).
Proof.
  intros E Ht Hf. unfold due.
  destruct (gas_loop_inv _ _ _ _ _ E) as [(_ & -> & _) | (-> & Et & _)]; [congruence |].
  split; [reflexivity |]. rewrite Et in Hf. now apply switch_mode_cleared.
Qed.

End GasSchedule.

Ltac split_all := repeat match goal with |- _ /\ _ => split end.

(** C5.  In every execution of either sketch the startup flag goes from
    startup to normal at most once and never back: along the history of
    the flag over any sequence of polls there is at most one switch from
    set to cleared and none from cleared to set, and a tick clears the flag
    only if it was due and the time since boot it computed is at least
    5000 ms. *)
Theorem startup_flag_cleared_once :
  (forall g polls,
      (count_switches true false (Ohm.mode_history g polls) <= 1)%nat
      /\ count_switches false true (Ohm.mode_history g polls) = O)
  /\ (forall g millis sensor,
        Scheduler.in_startup_mode g = true ->
        Scheduler.in_startup_mode (fst (Ohm.loop g millis sensor)) = false ->
        Scheduler.due g (to_uint millis) = true
        /\ 5000 <= Scheduler.time_since_boot_ms g (to_uint millis))
  /\ (forall g polls,
        (count_switches true false (Gas.mode_history g polls) <= 1)%nat
        /\ count_switches false true (Gas.mode_history g polls) = O)
  /\ (forall g polls,
        Gas.wf g -> length (Gas.mode_history g polls) = S (length polls))
  /\ (forall g millis sensor g' tr,
        Gas.loop g millis sensor = Some (g', tr) ->
        Scheduler.in_startup_mode (Gas.timing_of g) = true ->
        Scheduler.in_startup_mode (Gas.timing_of g') = false ->
        Scheduler.due (Gas.timing_of g) (to_uint millis) = true
        /\ 5000 <= Scheduler.time_since_boot_ms (Gas.timing_of g) (to_uint millis)).
Proof.
  split_all.
  - intros g polls. destruct (one_way_counts _ (ohm_history_one_way g polls)) as (A & B & _).
    now split.
  - intros g millis sensor. apply ohm_flag_cleared.
  - intros g polls. destruct (one_way_counts _ (gas_history_one_way g polls)) as (A & B & _).
    now split.
  - apply gas_history_length.
  - intros g millis sensor g' tr. apply gas_flag_cleared.
Qed.

Lemma startup_flag_cleared_once_witness :
  let polls := [(500, 300); (4000, 301); (5000, 302); (10000, 303)] in
  Ohm.mode_history (Ohm.setup 0) polls = [true; true; true; false; false]
  /\ Gas.mode_history (Gas.setup 0) polls = [true; true; true; false; false]
  /\ (count_switches true false (Ohm.mode_history (Ohm.setup 0) polls) <= 1)%nat
  /\ count_switches false true (Gas.mode_history (Gas.setup 0) polls) = O
  /\ 5000 <= Scheduler.time_since_boot_ms (fst (Ohm.run (Ohm.setup 0) [(500, 300); (4000, 301)])) (to_uint 5000).
Proof.
  split; [vm_compute; reflexivity |]. split; [vm_compute; reflexivity |].
  destruct startup_flag_cleared_once as (A & B & C & _).
  split; [apply A |]. split; [apply C |].
  apply (B (fst (Ohm.run (Ohm.setup 0) [(500, 300); (4000, 301)])) 5000 302);
    vm_compute; reflexivity.
Defined.

(** C6.  In either sketch a poll performs the sample-and-update cycle
    (reads the sensor and renders) if and only if the time delta
    qualifies: the time elapsed since the last sample reaches the interval
    of the current mode (500 ms in startup, 5000 ms in normal mode) or the
    clock has wrapped below the last sample time.  A sampling tick stores
    the current time as the last sample time, so after it, and after any
    number of polls that do not sample, the next sampling tick comes with a
    qualifying delta measured from it. *)
Theorem sample_iff_qualifying_delta :
  (forall g millis sensor,
      Scheduler.wf g ->
      sampled (snd (Ohm.loop g millis sensor)) && rendered (snd (Ohm.loop g millis sensor)) = true
      <-> qualifying g (to_uint millis))
  /\ (forall g millis sensor,
        Gas.wf g ->
        exists g' tr,
          Gas.loop g millis sensor = Some (g', tr)
          /\ (sampled tr && rendered tr = true
              <-> qualifying (Gas.timing_of g) (to_uint millis)))
  /\ (forall g m1 s1 idle m2 s2,
        Scheduler.wf g ->
        let g1 := fst (Ohm.loop g m1 s1) in
        let g2 := fst (Ohm.run g1 idle) in
        sampled (snd (Ohm.loop g m1 s1)) = true ->
        sampled (snd (Ohm.run g1 idle)) = false ->
        sampled (snd (Ohm.loop g2 m2 s2)) = true ->
        Scheduler.last_update_time_ms g2 = to_uint m1
        /\ (to_uint m2 < to_uint m1
            \/ Scheduler.interval_ms (Scheduler.in_startup_mode g2)
               <= to_uint m2 - to_uint m1))
  /\ (forall g m1 s1 g1 tr1 idle g2 tr2 m2 s2 g3 tr3,
        Gas.wf g ->
        Gas.loop g m1 s1 = Some (g1, tr1) -> sampled tr1 = true ->
        Gas.run g1 idle = Some (g2, tr2) -> sampled tr2 = false ->
        Gas.loop g2 m2 s2 = Some (g3, tr3) -> sampled tr3 = true ->
        Scheduler.last_update_time_ms (Gas.timing_of g2) = to_uint m1
        /\ (to_uint m2 < to_uint m1
            \/ Scheduler.interval_ms (Scheduler.in_startup_mode (Gas.timing_of g2))
               <= to_uint m2 - to_uint m1)).
Proof.
  split_all.
  - intros g millis sensor Hwf.
    rewrite <- (due_qualifying g (to_uint millis) Hwf (to_uint_range millis)).
    rewrite ohm_sampled_iff_due. unfold Scheduler.due.
    destruct (Scheduler.not_yet g (to_uint millis)) eqn:E.
    + now rewrite ohm_loop_idle.
    + now rewrite ohm_loop_due.
  - intros g millis sensor Hwf.
    destruct (gas_sampled_iff_due g millis sensor Hwf) as (g' & tr & E & _ & Hs & Hr).
    exists g', tr. split; [exact E |]. destruct Hwf as (Ht & _).
    rewrite <- (due_qualifying _ (to_uint millis) Ht (to_uint_range millis)).
    now rewrite Hs, Hr, andb_diag.
  - intros g m1 s1 idle m2 s2 Hwf g1 g2 H1 Hidle H2.
    assert (E2 : g2 = g1) by (subst g2; now apply ohm_run_idle). rewrite E2 in *.
    assert (Hl : Scheduler.last_update_time_ms g1 = to_uint m1).
    { subst g1. rewrite ohm_sampled_iff_due in H1. unfold Scheduler.due in H1.
      apply negb_true_iff in H1. now rewrite ohm_loop_due. }
    split; [exact Hl |].
    rewrite ohm_sampled_iff_due in H2.
    apply (due_qualifying g1 (to_uint m2)) in H2;
      [| subst g1; now apply ohm_loop_wf | apply to_uint_range].
    unfold qualifying in H2. rewrite Hl in H2. tauto.
  - intros g m1 s1 g1 tr1 idle g2 tr2 m2 s2 g3 tr3 Hwf E1 H1 Eidle Hidle E2 H2.
    assert (E : g2 = g1) by (eapply gas_run_idle; eassumption). subst g2.
    assert (Hwf1 : Gas.wf g1).
    { destruct (gas_loop_wf g m1 s1 Hwf) as (g' & tr' & E' & Hwf'). congruence. }
    assert (Hl : Scheduler.last_update_time_ms (Gas.timing_of g1) = to_uint m1).
    { destruct (gas_loop_inv _ _ _ _ _ E1) as [(_ & _ & ->) | (_ & -> & _)];
        [discriminate | reflexivity]. }
    split; [exact Hl |].
    destruct (gas_sampled_iff_due g1 m2 s2 Hwf1) as (g' & tr' & E' & _ & Hs & _).
    rewrite E2 in E'. inversion E'; subst g' tr'. rewrite H2 in Hs. symmetry in Hs.
    destruct Hwf1 as (Ht1 & _).
    apply (due_qualifying _ (to_uint m2) Ht1 (to_uint_range m2)) in Hs.
    unfold qualifying in Hs. rewrite Hl in Hs. tauto.
Qed.

Lemma sample_iff_qualifying_delta_witness :
  Scheduler.wf (Ohm.setup 0)
  /\ Gas.wf (Gas.setup 0)
  /\ (sampled (snd (Ohm.loop (Ohm.setup 0) 499 300))
      && rendered (snd (Ohm.loop (Ohm.setup 0) 499 300)) = true
      <-> qualifying (Ohm.setup 0) (to_uint 499))
  /\ sampled (snd (Ohm.loop (Ohm.setup 0) 499 300)) = false
  /\ (exists g' tr, Gas.loop (Gas.setup 0) 500 300 = Some (g', tr)
        /\ (sampled tr && rendered tr = true
            <-> qualifying (Gas.timing_of (Gas.setup 0)) (to_uint 500)))
  /\ qualifying (Gas.timing_of (Gas.setup 0)) (to_uint 500).
Proof.
  destruct sample_iff_qualifying_delta as (A & B & _).
  split; [apply wf_at_boot |]. split; [apply wf_setup |].
  split; [apply A, wf_at_boot |]. split; [vm_compute; reflexivity |].
  split; [apply B, wf_setup |]. right. vm_compute. split; discriminate.
Defined.

(** C7.  If on a poll the truncated clock value is below the stored last
    sample time, the elapsed time is the constant 30000 and not the
    wrapped difference, and the poll samples whatever the mode. *)
Theorem wrapped_clock_forces_sample :
  (forall g millis sensor,
      to_uint millis < Scheduler.last_update_time_ms g ->
      Scheduler.delta_ms g (to_uint millis) = 30000
      /\ Scheduler.due g (to_uint millis) = true
      /\ sampled (snd (Ohm.loop g millis sensor)) = true
      /\ Scheduler.last_update_time_ms (fst (Ohm.loop g millis sensor)) = to_uint millis)
  /\ (forall g millis sensor,
        Gas.wf g ->
        to_uint millis < Scheduler.last_update_time_ms (Gas.timing_of g) ->
        Scheduler.delta_ms (Gas.timing_of g) (to_uint millis) = 30000
        /\ Scheduler.due (Gas.timing_of g) (to_uint millis) = true
        /\ exists g' tr,
            Gas.loop g millis sensor = Some (g', tr)
            /\ sampled tr = true
            /\ Scheduler.last_update_time_ms (Gas.timing_of g') = to_uint millis).
Proof.
  assert (Hdue : forall t cur, cur < Scheduler.last_update_time_ms t ->
                               Scheduler.not_yet t cur = false).
  { intros t cur H. unfold Scheduler.not_yet. rewrite (delta_ms_wrapped t cur H).
    simpl. now rewrite andb_false_r. }
  split.
  - intros g millis sensor H. split; [now apply delta_ms_wrapped |].
    specialize (Hdue g _ H). unfold Scheduler.due. rewrite Hdue.
    split; [reflexivity |]. now rewrite ohm_loop_due.
  - intros g millis sensor Hwf H. split; [now apply delta_ms_wrapped |].
    specialize (Hdue _ _ H). unfold Scheduler.due. rewrite Hdue.
    split; [reflexivity |].
    destruct (gas_loop_due g millis sensor Hwf Hdue) as (g1 & avg & _ & _ & ->).
    eexists _, _. split; [reflexivity |]. split; reflexivity.
Qed.

Lemma wrapped_clock_forces_sample_witness :
  let g := fst (Ohm.run (Ohm.setup 0) [(500, 300); (60000, 300); (65000, 300)]) in
  Scheduler.in_startup_mode g = false
  /\ Scheduler.last_update_time_ms g = 65000
  /\ to_uint 65636 = 100
  /\ uint_sub (to_uint 65636) (Scheduler.last_update_time_ms g) = 636
  /\ Scheduler.delta_ms g (to_uint 65636) = 30000
  /\ sampled (snd (Ohm.loop g 65636 300)) = true.
Proof.
  split; [vm_compute; reflexivity |]. split; [vm_compute; reflexivity |].
  split; [vm_compute; reflexivity |]. split; [vm_compute; reflexivity |].
  destruct wrapped_clock_forces_sample as (A & _).
  split; apply (A (fst (Ohm.run (Ohm.setup 0) [(500, 300); (60000, 300); (65000, 300)]))
                  65636 300); vm_compute; reflexivity.
Defined.

(** C8.  On every poll where sampling is not due the tick changes nothing:
    the globals it returns are the ones it got (mode flag, last sample
    time, and in the filtered sketch the sample buffer, its write index
    and its count of valid entries), and the calls it makes are the serial
    diagnostics alone, with no sensor read and no render call. *)
Theorem idle_poll_changes_nothing :
  (forall g millis sensor,
      Scheduler.due g (to_uint millis) = false ->
      fst (Ohm.loop g millis sensor) = g
      /\ sampled (snd (Ohm.loop g millis sensor)) = false
      /\ rendered (snd (Ohm.loop g millis sensor)) = false
      /\ forallb is_diagnostic (snd (Ohm.loop g millis sensor)) = true)
  /\ (forall g millis sensor,
        Scheduler.due (Gas.timing_of g) (to_uint millis) = false ->
        exists tr,
          Gas.loop g millis sensor = Some (g, tr)
          /\ sampled tr = false /\ rendered tr = false
          /\ forallb is_diagnostic tr = true).
Proof.
  split.
  - intros g millis sensor H. unfold Scheduler.due in H. apply negb_false_iff in H.
    rewrite ohm_loop_idle by assumption. repeat split; reflexivity.
  - intros g millis sensor H. unfold Scheduler.due in H. apply negb_false_iff in H.
    rewrite gas_loop_idle by assumption. eexists. repeat split; reflexivity.
Qed.

Lemma idle_poll_changes_nothing_witness :
  let g := fst (Ohm.run (Ohm.setup 0) [(500, 300); (5000, 300)]) in
  Scheduler.due g (to_uint 9999) = false
  /\ fst (Ohm.loop g 9999 300) = g
  /\ (exists tr, Gas.loop (Gas.setup 0) 499 300 = Some (Gas.setup 0, tr)
                 /\ sampled tr = false /\ rendered tr = false
                 /\ forallb is_diagnostic tr = true).
Proof.
  destruct idle_poll_changes_nothing as (A & B).
  split; [vm_compute; reflexivity |].
  split; [apply A; vm_compute; reflexivity |].
  apply B. vm_compute. reflexivity.
Defined.

(** ** Binary32 arithmetic on integers below 2^24

    Integers of magnitude below 2^24 are binary32 numbers, and adding two
    of them is exact as long as the sum stays below 2^24. *)

Lemma digits2_log2 p : Z.pos (digits2_pos p) = Z.log2 (Z.pos p) + 1.
Proof.
  induction p as [p IH | p IH |]; cbn [digits2_pos]; [| | reflexivity].
  - rewrite Pos2Z.inj_succ, IH.
    change (Z.pos p~1) with (2 * Z.pos p + 1). rewrite Z.log2_succ_double by lia. lia.
  - rewrite Pos2Z.inj_succ, IH.
    change (Z.pos p~0) with (2 * Z.pos p). rewrite Z.log2_double by lia. lia.
Qed.

Lemma digits2_bounds p : 2 ^ (Z.pos (digits2_pos p) - 1) <= Z.pos p < 2 ^ Z.pos (digits2_pos p).
Proof.
  rewrite digits2_log2. replace (Z.log2 (Z.pos p) + 1 - 1) with (Z.log2 (Z.pos p)) by lia.
  replace (Z.log2 (Z.pos p) + 1) with (Z.succ (Z.log2 (Z.pos p))) by lia.
  apply Z.log2_spec. lia.
Qed.

Lemma digits2_shift p q k :
  0 <= k -> Z.pos q = Z.pos p * 2 ^ k ->
  Z.pos (digits2_pos q) = Z.pos (digits2_pos p) + k.
Proof.
  intros Hk E. rewrite !digits2_log2, E, Z.log2_mul_pow2 by lia. lia.
Qed.

Lemma iter_pos_nat {A} (f : A -> A) n x :
  SpecFloat.iter_pos f n x = Nat.iter (Pos.to_nat n) f x.
Proof.
  revert x. induction n as [n IH | n IH |]; intros x; cbn [SpecFloat.iter_pos].
  - rewrite !IH, Pos2Nat.inj_xI. rewrite <- Nat.iter_add.
    replace (S (2 * Pos.to_nat n)) with (S (Pos.to_nat n + Pos.to_nat n))%nat by lia.
    now rewrite Nat.iter_succ_r.
  - rewrite !IH, Pos2Nat.inj_xO, <- Nat.iter_add. f_equal. lia.
  - reflexivity.
Qed.

Lemma shr_1_even m :
  0 < m -> shr_1 (Build_shr_record (2 * m) false false) = Build_shr_record m false false.
Proof. destruct m; try lia. reflexivity. Qed.

Lemma shr_exact_nat k m :
  0 < m ->
  Nat.iter k shr_1 (Build_shr_record (m * 2 ^ Z.of_nat k) false false)
  = Build_shr_record m false false.
Proof.
  revert m. induction k as [| k IH]; intros m Hm.
  - simpl. now rewrite Z.mul_1_r.
  - rewrite Nat.iter_succ_r.
    replace (m * 2 ^ Z.of_nat (S k)) with (2 * (m * 2 ^ Z.of_nat k))
      by (rewrite Nat2Z.inj_succ, Z.pow_succ_r by lia; ring).
    rewrite shr_1_even by (apply Z.mul_pos_pos; [lia | apply Z.pow_pos_nonneg; lia]).
    now apply IH.
Qed.

Lemma shr_exact m e k :
  0 < m -> 0 <= k ->
  shr (Build_shr_record (m * 2 ^ k) false false) e k = (Build_shr_record m false false, e + k).
Proof.
  intros Hm Hk. destruct k as [| k | k]; [| | lia].
  - simpl. now rewrite Z.mul_1_r, Z.add_0_r.
  - cbn [shr]. rewrite iter_pos_nat. f_equal.
    rewrite <- (positive_nat_Z k). now apply shr_exact_nat.
Qed.

(** Rounding a mantissa that only needs its trailing zeros dropped. *)
Lemma binary_round_aux_exact s c ec k :
  Z.pos (digits2_pos c) = prec -> -149 <= ec <= 104 -> 0 <= k ->
  binary_round_aux prec emax s (Z.pos c * 2 ^ k) (ec - k) loc_Exact = S754_finite s c ec.
Proof.
  intros Hc He Hk.
  assert (Hpos : 0 < Z.pos c * 2 ^ k) by (apply Z.mul_pos_pos; [lia | apply Z.pow_pos_nonneg; lia]).
  destruct (Z.pos c * 2 ^ k) as [| q | q] eqn:Eq; try lia.
  assert (Hq : Z.pos (digits2_pos q) = prec + k).
  { rewrite (digits2_shift c q k Hk (eq_sym Eq)). lia. }
  unfold binary_round_aux, shr_fexp. cbn [Zdigits2 shr_record_of_loc].
  rewrite Hq. unfold fexp, emin, prec, emax in *.
  replace (Z.max (24 + k + (ec - k) - 24) (3 - 128 - 24) - (ec - k)) with k by lia.
  rewrite <- Eq, shr_exact by lia. cbn [shr_m loc_of_shr_record round_nearest_even Zdigits2].
  rewrite Hc.
  replace (Z.max (24 + (ec - k + k) - 24) (3 - 128 - 24) - (ec - k + k)) with 0 by lia.
  cbn [shr shr_m]. replace (ec - k + k) with ec by lia.
  destruct (Z.leb_spec ec (128 - 24)); [reflexivity | lia].
Qed.

Lemma pos_iter_xO_value q d : Z.pos (Pos.iter xO q d) = Z.pos q * 2 ^ Z.pos d.
Proof.
  change (Pos.iter xO q d) with (shift_pos d q).
  rewrite shift_pos_correct, Z.pow_pos_fold. ring.
Qed.

Lemma canon_m_value p :
  Z.pos (digits2_pos p) <= prec ->
  Z.pos (canon_m p) = Z.pos p * 2 ^ (prec - Z.pos (digits2_pos p)).
Proof.
  intros H. unfold canon_m. rewrite Z2Pos.id; [reflexivity |].
  apply Z.mul_pos_pos; [lia | apply Z.pow_pos_nonneg; lia].
Qed.

Lemma canon_m_digits p :
  Z.pos (digits2_pos p) <= prec -> Z.pos (digits2_pos (canon_m p)) = prec.
Proof.
  intros H. rewrite (digits2_shift p (canon_m p) (prec - Z.pos (digits2_pos p)));
    [lia | lia | now apply canon_m_value].
Qed.

Lemma binary_round_small s p j q :
  Z.pos (digits2_pos p) <= prec -> 0 <= j <= 100 -> Z.pos q = Z.pos p * 2 ^ j ->
  binary_round prec emax s q (- j) = S754_finite s (canon_m p) (canon_e p).
Proof.
  intros Hp Hj Eq.
  pose proof (digits2_shift p q j ltac:(lia) Eq) as Hq.
  pose proof (canon_m_value p Hp) as Hv. pose proof (canon_m_digits p Hp) as Hd.
  assert (Hdp : 0 < Z.pos (digits2_pos p)) by lia.
  unfold binary_round, shl_align. rewrite Hq. unfold fexp, emin, canon_e in *.
  unfold prec, emax in *.
  replace (Z.max (Z.pos (digits2_pos p) + j + - j - 24) (3 - 128 - 24))
    with (Z.pos (digits2_pos p) - 24) by lia.
  destruct (Z.pos (digits2_pos p) - 24 - - j) as [| k | d] eqn:Ek.
  - rewrite <- (binary_round_aux_exact s (canon_m p) (Z.pos (digits2_pos p) - 24) 0)
      by (unfold prec; lia).
    f_equal; [| lia]. rewrite Hv, Eq, Z.pow_0_r, Z.mul_1_r.
    replace (24 - Z.pos (digits2_pos p)) with j by lia. reflexivity.
  - rewrite <- (binary_round_aux_exact s (canon_m p) (Z.pos (digits2_pos p) - 24) (Z.pos k))
      by (unfold prec; lia).
    f_equal; [| lia]. rewrite Hv, Eq, <- Z.mul_assoc, <- Z.pow_add_r by lia.
    replace (24 - Z.pos (digits2_pos p) + Z.pos k) with j by lia. reflexivity.
  - rewrite <- (binary_round_aux_exact s (canon_m p) (Z.pos (digits2_pos p) - 24) 0)
      by (unfold prec; lia).
    f_equal; [| lia].
    rewrite pos_iter_xO_value, Hv, Eq, <- Z.mul_assoc, <- Z.pow_add_r, Z.pow_0_r, Z.mul_1_r by lia.
    replace (j + Z.pos d) with (24 - Z.pos (digits2_pos p)) by lia. reflexivity.
Qed.

Lemma small_digits p : Z.pos p < 2 ^ prec -> Z.pos (digits2_pos p) <= prec.
Proof.
  intros H. destruct (digits2_bounds p) as [Hlo _].
  destruct (Z.le_gt_cases (Z.pos (digits2_pos p)) prec) as [| Hgt]; [assumption | exfalso].
  assert (2 ^ prec <= 2 ^ (Z.pos (digits2_pos p) - 1)) by (apply Z.pow_le_mono_r; unfold prec in *; lia).
  lia.
Qed.

(** Scaling a small integer by a power of two does not change what the
    normalisation returns. *)
Lemma binary_normalize_scaled z j :
  Z.abs z < 2 ^ prec -> 0 <= j <= 100 ->
  binary_normalize prec emax (z * 2 ^ j) (- j) false = float_of_int z.
Proof.
  intros Hz Hj. unfold float_of_int.
  assert (H2 : 0 < 2 ^ j) by (apply Z.pow_pos_nonneg; lia).
  destruct z as [| p | p].
  - reflexivity.
  - destruct (Z.pos p * 2 ^ j) as [| q | q] eqn:Eq; try lia.
    cbn [binary_normalize].
    rewrite (binary_round_small false p j q) by (try apply small_digits; lia).
    change 0 with (- 0).
    rewrite (binary_round_small false p 0 p) by (try apply small_digits; lia). reflexivity.
  - destruct (Z.neg p * 2 ^ j) as [| q | q] eqn:Eq; try lia.
    cbn [binary_normalize].
    rewrite (binary_round_small true p j q) by (try apply small_digits; lia).
    change 0 with (- 0).
    rewrite (binary_round_small true p 0 p) by (try apply small_digits; lia). reflexivity.
Qed.

Lemma float_of_int_repr z :
  z <> 0 -> Z.abs z < 2 ^ prec ->
  exists s m e,
    float_of_int z = S754_finite s m e
    /\ -23 <= e <= 0 /\ cond_Zopp s (Z.pos m) = z * 2 ^ (- e).
Proof.
  intros Hz Hs. unfold float_of_int.
  destruct z as [| p | p]; [lia | |]; cbn [binary_normalize]; change 0 with (- 0);
    rewrite (binary_round_small _ p 0 p) by (try apply small_digits; lia);
    eexists _, _, _; (split; [reflexivity |]);
    pose proof (small_digits p ltac:(lia)) as Hd;
    rewrite canon_m_value by assumption; unfold canon_e, prec in *;
    (split; [lia |]); cbn [cond_Zopp];
    replace (- (Z.pos (digits2_pos p) - 24)) with (24 - Z.pos (digits2_pos p)) by lia;
    lia.
Qed.

Lemma shl_align_value m e ez :
  ez <= e -> Z.pos (fst (shl_align m e ez)) = Z.pos m * 2 ^ (e - ez).
Proof.
  intros H. unfold shl_align. destruct (ez - e) as [| k | d] eqn:E; try lia; cbn [fst].
  - replace (e - ez) with 0 by lia. simpl. lia.
  - rewrite pos_iter_xO_value. f_equal. f_equal. lia.
Qed.

Lemma fadd_exact a b :
  Z.abs a < 2 ^ prec -> Z.abs b < 2 ^ prec -> Z.abs (a + b) < 2 ^ prec ->
  fadd (float_of_int a) (float_of_int b) = float_of_int (a + b).
Proof.
  intros Ha Hb Hab.
  destruct (Z.eq_dec a 0) as [-> | Na].
  { rewrite Z.add_0_l. destruct (Z.eq_dec b 0) as [-> | Nb]; [reflexivity |].
    destruct (float_of_int_repr b Nb Hb) as (s & m & e & -> & _). reflexivity. }
  destruct (Z.eq_dec b 0) as [-> | Nb].
  { rewrite Z.add_0_r. destruct (float_of_int_repr a Na Ha) as (s & m & e & -> & _). reflexivity. }
  destruct (float_of_int_repr a Na Ha) as (sa & ma & ea & -> & Hea & Va).
  destruct (float_of_int_repr b Nb Hb) as (sb & mb & eb & -> & Heb & Vb).
  unfold fadd. cbn [SFadd].
  set (ez := Z.min ea eb).
  rewrite <- (binary_normalize_scaled (a + b) (- ez)) by (subst ez; lia).
  rewrite Z.opp_involutive. f_equal.
  assert (Ea : cond_Zopp sa (Z.pos (fst (shl_align ma ea ez))) = a * 2 ^ (- ez)).
  { rewrite shl_align_value by (subst ez; lia).
    replace (- ez) with (- ea + (ea - ez)) by lia.
    rewrite Z.pow_add_r by (subst ez; lia). rewrite Z.mul_assoc, <- Va.
    destruct sa; cbn [cond_Zopp]; ring. }
  assert (Eb : cond_Zopp sb (Z.pos (fst (shl_align mb eb ez))) = b * 2 ^ (- ez)).
  { rewrite shl_align_value by (subst ez; lia).
    replace (- ez) with (- eb + (eb - ez)) by lia.
    rewrite Z.pow_add_r by (subst ez; lia). rewrite Z.mul_assoc, <- Vb.
    destruct sb; cbn [cond_Zopp]; ring. }
  rewrite Ea, Eb. ring.
Qed.

(** ** The sample filter *)

Section FilterFacts.
Import Scheduler Gas.

(** The running sum of the averaging loop is the exact sum. *)
Lemma sum_from_exact a todo i s :
  0 <= i -> Forall int_valued a ->
  (Z.to_nat i + todo <= length a)%nat ->
  Z.abs s + Z.of_nat todo * 32768 < 2 ^ prec ->
  sum_from a todo i (float_of_int s)
  = Some (float_of_int (s + sum_Z (take todo (drop (Z.to_nat i) a)))).
Proof.
  intros Hi Ha. revert i s Hi. induction todo as [| todo IH]; intros i s Hi Hlen Hs.
  - cbn. now rewrite Z.add_0_r.
  - cbn [sum_from]. unfold array_load. apply Z.leb_le in Hi as Hi'. rewrite Hi'.
    destruct (lookup_lt_is_Some_2 a (Z.to_nat i)) as [v Hv]; [lia |].
    rewrite Hv. simpl. pose proof (Forall_lookup_1 _ _ _ _ Ha Hv) as Hr.
    unfold int_valued, INT_MIN, INT_MAX, prec in *.
    rewrite fadd_exact by (unfold prec; lia).
    rewrite IH by (try rewrite Z2Nat.inj_add by lia; unfold prec; lia).
    rewrite (drop_S _ _ _ Hv). cbn [take sum_Z fold_right].
    replace (Z.to_nat (i + 1)) with (S (Z.to_nat i)) by lia.
    unfold sum_Z. cbn [foldr]. do 2 f_equal. ring.
Qed.

Lemma average_is_mean g :
  Forall int_valued (samples g) ->
  length (samples g) = Z.to_nat MAX_SAMPLES ->
  0 <= samples_to_average g <= MAX_SAMPLES ->
  average_sensor_value g
  = Some (arithmetic_mean (take (Z.to_nat (samples_to_average g)) (samples g))).
Proof.
  intros Ha Hlen Hc. unfold average_sensor_value, arithmetic_mean, MAX_SAMPLES in *.
  change fzero with (float_of_int 0).
  rewrite sum_from_exact by (try assumption; unfold prec; lia).
  simpl. rewrite drop_0, Z.add_0_l. do 3 f_equal.
  rewrite length_take. lia.
Qed.

(** Pushing into a buffer that is not full appends. *)
Lemma update_cache_fill boot vs r :
  (length vs < Z.to_nat MAX_SAMPLES)%nat ->
  update_cache (filled boot vs) r = Some (filled boot (vs ++ [r])).
Proof.
  intros Hlen. unfold MAX_SAMPLES in *. unfold update_cache, filled.
  cbn [samples next_sample samples_to_average timing_of]. unfold MAX_SAMPLES.
  destruct (Z.geb_spec (Z.of_nat (length vs)) 100) as [Hge | Hlt]; [lia |].
  rewrite array_store_Some
    by (rewrite length_app, length_replicate; lia).
  simpl. rewrite !int_checked_Some by (unfold INT_MIN, INT_MAX; lia). simpl.
  rewrite c_min_is_min, length_app. cbn [length].
  replace (Z.of_nat (length vs + 1)) with (Z.of_nat (length vs) + 1) by lia.
  replace ((Z.of_nat (length vs) + 1) `min` 100) with (Z.of_nat (length vs) + 1) by lia.
  rewrite Nat2Z.id, insert_app_r_alt, Nat.sub_diag by lia.
  destruct (Z.to_nat 100 - length vs)%nat as [| k] eqn:Ek; [lia |].
  replace (Z.to_nat 100 - (length vs + 1))%nat with k by lia.
  cbn [replicate]. cbn. now rewrite <- app_assoc.
Qed.

Lemma push_all_fill boot vs rs :
  (length vs + length rs <= Z.to_nat MAX_SAMPLES)%nat ->
  push_all (filled boot vs) rs = Some (filled boot (vs ++ rs)).
Proof.
  revert vs. induction rs as [| r rs IH]; intros vs Hlen.
  - cbn. now rewrite app_nil_r.
  - cbn [push_all]. cbn [length] in Hlen.
    rewrite update_cache_fill by lia. simpl.
    rewrite IH by (rewrite length_app; cbn; lia). now rewrite <- app_assoc.
Qed.

Lemma setup_filled millis : setup millis = filled (at_boot millis) [].
Proof. reflexivity. Qed.

Lemma push_all_app g rs1 rs2 :
  push_all g (rs1 ++ rs2) = push_all g rs1 ≫= fun g1 => push_all g1 rs2.
Proof.
  revert g. induction rs1 as [| r rs1 IH]; intros g; [reflexivity |].
  cbn [push_all app]. destruct (update_cache g r) as [g1 |]; simpl; [apply IH | reflexivity].
Qed.

End FilterFacts.

Lemma sum_Z_app l1 l2 : sum_Z (l1 ++ l2) = sum_Z l1 + sum_Z l2.
Proof.
  unfold sum_Z. induction l1 as [| x l1 IH]; cbn [app fold_right]; [lia |].
  rewrite IH. ring.
Qed.

Lemma filled_wf boot vs :
  Scheduler.wf boot -> (length vs <= 100)%nat -> Gas.wf (filled boot vs).
Proof.
  intros Hb Hlen. split; [exact Hb |]. unfold filled, Gas.MAX_SAMPLES. cbn.
  rewrite length_app, length_replicate.
  destruct (Z.geb_spec (Z.of_nat (length vs)) 100); repeat split; lia.
Qed.

Lemma update_cache_full boot first mid r :
  length mid = 99%nat ->
  Gas.update_cache (filled boot (first :: mid)) r
  = Some {| Gas.timing_of := boot; Gas.samples := r :: mid;
            Gas.next_sample := 1; Gas.samples_to_average := 100 |}.
Proof.
  intros Hlen. unfold Gas.update_cache, filled, Gas.array_store.
  cbn [Gas.samples Gas.next_sample Gas.samples_to_average Gas.timing_of].
  rewrite length_app, length_replicate. cbn [length]. rewrite Hlen.
  vm_compute (Z.of_nat 100). vm_compute (Z.to_nat Gas.MAX_SAMPLES - 100)%nat.
  change (100 >=? Gas.MAX_SAMPLES) with true. cbn iota.
  change ((0 <=? 0) && (0 <? Z.of_nat (100 + 0))) with true. cbn iota.
  change (int_checked (0 + 1)) with (Some 1).
  change (int_checked (100 + 1)) with (Some 101).
  cbn [mbind option_bind replicate]. rewrite app_nil_r. reflexivity.
Qed.

(** C1.  In the filtered sketch, after N readings were pushed since boot,
    0 < N < 100, the computed average is the arithmetic mean of exactly
    those N readings (their exact sum divided by N in binary32); and after
    101 readings were pushed the buffer holds the last 100 of them and the
    average is the arithmetic mean of these, whatever the first reading
    was.  Readings are [int] values. *)
Theorem average_is_mean_of_pushed :
  (forall millis vs,
      (0 < length vs < 100)%nat -> Forall int_valued vs ->
      exists g,
        Gas.push_all (Gas.setup millis) vs = Some g
        /\ Gas.samples_to_average g = Z.of_nat (length vs)
        /\ Gas.average_sensor_value g = Some (arithmetic_mean vs))
  /\ (forall millis first mid last,
        length mid = 99%nat -> Forall int_valued (mid ++ [last]) ->
        exists g,
          Gas.push_all (Gas.setup millis) (first :: mid ++ [last]) = Some g
          /\ Gas.samples g = last :: mid
          /\ Gas.samples_to_average g = 100
          /\ Gas.average_sensor_value g = Some (arithmetic_mean (mid ++ [last]))).
Proof.
  split.
  - intros millis vs Hlen Hvs. exists (filled (Scheduler.at_boot millis) vs).
    rewrite setup_filled, push_all_fill by (unfold Gas.MAX_SAMPLES; cbn; lia).
    split; [reflexivity |]. split; [reflexivity |].
    rewrite average_is_mean.
    + cbn [filled Gas.samples Gas.samples_to_average].
      now rewrite Nat2Z.id, take_app_length.
    + cbn [filled Gas.samples]. apply Forall_app. split; [exact Hvs |].
      apply Forall_replicate. unfold int_valued, INT_MIN, INT_MAX. lia.
    + apply (filled_wf (Scheduler.at_boot millis) vs); [apply wf_at_boot | lia].
    + cbn [filled Gas.samples_to_average]. unfold Gas.MAX_SAMPLES. lia.
  - intros millis first mid last Hlen Hvs.
    change (first :: mid ++ [last]) with ((first :: mid) ++ [last]).
    rewrite push_all_app, setup_filled, push_all_fill
      by (unfold Gas.MAX_SAMPLES; cbn [length]; lia).
    cbn [app mbind option_bind Gas.push_all].
    rewrite update_cache_full by assumption. cbn [mbind option_bind].
    eexists. split; [reflexivity |].
    cbn [Gas.samples Gas.samples_to_average]. split; [reflexivity |].
    split; [reflexivity |].
    apply Forall_app in Hvs as [Hmid Hlast].
    rewrite Forall_singleton in Hlast.
    rewrite average_is_mean;
      cbn [Gas.samples Gas.samples_to_average length];
      [ | constructor; assumption | rewrite Hlen; reflexivity
        | unfold Gas.MAX_SAMPLES; lia ].
    f_equal. rewrite take_ge by (cbn [length]; lia).
    unfold arithmetic_mean. rewrite sum_Z_app, length_app. cbn [length].
    f_equal; f_equal; [unfold sum_Z; cbn [fold_right]; ring | lia].
Qed.

Lemma average_is_mean_of_pushed_witness :
  (exists g,
      Gas.push_all (Gas.setup 0) [100; 301; 200] = Some g
      /\ Gas.samples_to_average g = 3
      /\ Gas.average_sensor_value g = Some (arithmetic_mean [100; 301; 200]))
  /\ to_Q (arithmetic_mean [100; 301; 200]) = Some (13129045 # 65536)%Q
  /\ (exists g,
        Gas.push_all (Gas.setup 0) (1023 :: replicate 99 500 ++ [700]) = Some g
        /\ Gas.samples g = 700 :: replicate 99 500
        /\ Gas.samples_to_average g = 100
        /\ Gas.average_sensor_value g = Some (arithmetic_mean (replicate 99 500 ++ [700])))
  /\ arithmetic_mean (replicate 99 500 ++ [700]) = float_of_int 502.
Proof.
  destruct average_is_mean_of_pushed as (A & B).
  split.
  { apply (A 0 [100; 301; 200]); [cbn; lia |].
    repeat constructor; unfold INT_MIN, INT_MAX; lia. }
  split; [vm_compute; reflexivity |].
  split; [| vm_compute; reflexivity].
  apply (B 0 1023 (replicate 99 500) 700); [reflexivity |].
  apply Forall_app. split; [apply Forall_replicate | apply Forall_singleton];
    unfold int_valued, INT_MIN, INT_MAX; lia.
Defined.

(** C10.  In the filtered sketch every due tick, taken from globals within
    their bounds, completes its cache update with the write index in
    [0, 100) and the count of valid entries in [1, 100]: the store and
    every load of the averaging loop fall inside the sample array, and the
    divisor of the average is not zero.  The globals at boot are within
    bounds (with no valid entry yet), and every run from boot stays within
    bounds, so this holds on every due tick, the first one included. *)
Theorem sample_cache_within_bounds :
  (forall g millis sensor,
      Gas.wf g ->
      Scheduler.due (Gas.timing_of g) (to_uint millis) = true ->
      exists g1 sum g' tr,
        Gas.update_cache g sensor = Some g1
        /\ 0 <= Gas.next_sample g < Z.of_nat (length (Gas.samples g))
        /\ 0 <= Gas.next_sample g1 < 100
        /\ 1 <= Gas.samples_to_average g1 <= 100
        /\ length (Gas.samples g1) = 100%nat
        /\ Gas.sum_from (Gas.samples g1) (Z.to_nat (Gas.samples_to_average g1)) 0 fzero
           = Some sum
        /\ Gas.average_sensor_value g1
           = Some (fdiv sum (float_of_int (Gas.samples_to_average g1)))
        /\ Gas.samples_to_average g1 <> 0
        /\ Gas.loop g millis sensor = Some (g', tr)
        /\ Gas.next_sample g' = Gas.next_sample g1
        /\ Gas.samples_to_average g' = Gas.samples_to_average g1
        /\ Gas.wf g')
  /\ (forall millis,
        Gas.wf (Gas.setup millis) /\ Gas.samples_to_average (Gas.setup millis) = 0)
  /\ (forall millis polls,
        exists g tr, Gas.run (Gas.setup millis) polls = Some (g, tr) /\ Gas.wf g).
Proof.
  split_all.
  - intros g millis sensor Hwf Hdue.
    unfold Scheduler.due in Hdue. apply negb_true_iff in Hdue.
    destruct (update_cache_defined g sensor Hwf)
      as (g1 & E1 & _ & _ & _ & _ & Hlen & Hn & Hc).
    destruct (average_defined g1 Hlen ltac:(unfold Gas.MAX_SAMPLES in *; lia))
      as (sum & Es & Ea).
    destruct (gas_loop_due g millis sensor Hwf Hdue) as (g1' & avg & E1' & _ & El).
    rewrite E1 in E1'. inversion E1'; subst g1'.
    destruct (gas_loop_wf g millis sensor Hwf) as (g' & tr & El' & Hwf').
    rewrite El in El'. inversion El' as [[Eg Etr]]. rewrite Eg in El.
    exists g1, sum, g', tr. unfold Gas.MAX_SAMPLES in *.
    destruct Hwf as (_ & Hl & Hi & _).
    split; [exact E1 |]. split; [rewrite Hl; lia |]. split; [lia |].
    split; [lia |]. split; [rewrite Hlen; reflexivity |]. split; [exact Es |].
    split; [exact Ea |]. split; [lia |]. split; [rewrite <- Etr; exact El |].
    rewrite <- Eg. cbn [Gas.next_sample Gas.samples_to_average].
    split; [reflexivity |]. split; [reflexivity |]. rewrite Eg. exact Hwf'.
  - intros millis. split; [apply wf_setup | reflexivity].
  - intros millis polls. apply gas_run_wf, wf_setup.
Qed.

Lemma sample_cache_within_bounds_witness :
  Gas.wf (Gas.setup 0)
  /\ Scheduler.due (Gas.timing_of (Gas.setup 0)) (to_uint 500) = true
  /\ exists g1 sum g' tr,
      Gas.update_cache (Gas.setup 0) 300 = Some g1
      /\ 0 <= Gas.next_sample (Gas.setup 0) < Z.of_nat (length (Gas.samples (Gas.setup 0)))
      /\ 0 <= Gas.next_sample g1 < 100
      /\ 1 <= Gas.samples_to_average g1 <= 100
      /\ length (Gas.samples g1) = 100%nat
      /\ Gas.sum_from (Gas.samples g1) (Z.to_nat (Gas.samples_to_average g1)) 0 fzero
         = Some sum
      /\ Gas.average_sensor_value g1
         = Some (fdiv sum (float_of_int (Gas.samples_to_average g1)))
      /\ Gas.samples_to_average g1 <> 0
      /\ Gas.loop (Gas.setup 0) 500 300 = Some (g', tr)
      /\ Gas.next_sample g' = Gas.next_sample g1
      /\ Gas.samples_to_average g' = Gas.samples_to_average g1
      /\ Gas.wf g'.
Proof.
  destruct sample_cache_within_bounds as (A & _).
  split; [apply wf_setup |]. split; [vm_compute; reflexivity |].
  apply (A (Gas.setup 0) 500 300); [apply wf_setup | vm_compute; reflexivity].
Defined.

(** ** End to end *)

(** C2 (amended).  In the two-stage sketch the raw reading 243 gives a
    normalized reading of 0.359 and a quadratic stage of 0.237 (both to
    three decimals), 25.7 ohms (to one decimal) and 14.27 gallons (to two
    decimals, so 14.3 to one), and the display gets exactly 12 blocks, also
    through [loop]. *)
Theorem two_stage_example_243 :
  exists x y ohmage,
    Ohm.norm_reading 243 = Some x
    /\ approx x (359 # 1000) (5 # 10000)
    /\ Ohm.norm_ohmage 243 = Some y
    /\ approx y (237 # 1000) (5 # 10000)
    /\ Ohm.estimate_ohmage_from_reading 243 = Some ohmage
    /\ approx ohmage (257 # 10) (5 # 100)
    /\ approx (Ohm.get_gallons_for_ohmage ohmage) (1427 # 100) (5 # 1000)
    /\ approx (Ohm.get_gallons_for_ohmage ohmage) (143 # 10) (5 # 100)
    /\ Quantizer.get_num_display_blocks_for_gallons (Ohm.get_gallons_for_ohmage ohmage)
       = Some 12
    /\ In (ShowGasMeter (Some 12)) (snd (Ohm.loop (Ohm.setup 0) 500 243)).
Proof.
  eexists _, _, _.
  split; [vm_compute; reflexivity |]. split; [vm_compute; discriminate |].
  split; [vm_compute; reflexivity |]. split; [vm_compute; discriminate |].
  split; [vm_compute; reflexivity |]. split; [vm_compute; discriminate |].
  split; [vm_compute; discriminate |]. split; [vm_compute; discriminate |].
  split; [vm_compute; reflexivity |].
  vm_compute. do 11 right. left. reflexivity.
Qed.

(** C2 as stated fails in the gallons figure: at the raw reading 243 the
    gallons value is above 14.25, so it does not read 14.1 to one
    decimal. *)
Lemma two_stage_example_243_not_14_1 :
  exists ohmage q,
    Ohm.estimate_ohmage_from_reading 243 = Some ohmage
    /\ to_Q (Ohm.get_gallons_for_ohmage ohmage) = Some q
    /\ (1425 # 100 < q)%Q
    /\ ~ approx (Ohm.get_gallons_for_ohmage ohmage) (141 # 10) (5 # 100).
Proof.
  eexists _, _.
  split; [vm_compute; reflexivity |]. split; [vm_compute; reflexivity |].
  split; [vm_compute; reflexivity |].
  vm_compute. intros H. apply H. reflexivity.
Qed.

(** C9 (amended).  On every due tick the control loop reads the sensor and
    then calls the display with the block count and with the computed
    estimates: in the unfiltered sketch [show_gas_stats] gets the raw
    reading of that tick, the ohmage and the gallons; in the filtered
    sketch it gets row 1, the average of the buffered readings cut to an
    integer (not the raw reading of that tick) and the gallons computed
    from that average. *)
Theorem due_tick_renders :
  (forall g millis sensor,
      Scheduler.due g (to_uint millis) = true ->
      let ohmage := Ohm.estimate_ohmage_from_reading sensor in
      let gallons := Ohm.get_gallons_for_ohmage <$> ohmage in
      snd (Ohm.loop g millis sensor)
      = Scheduler.diagnostics g (to_uint millis)
        ++ [ Scheduler.passed; AnalogRead A0 sensor;
             ShowGasMeter (gallons ≫= Quantizer.get_num_display_blocks_for_gallons);
             ShowGasStatsOhm sensor ohmage gallons ])
  /\ (forall g millis sensor,
        Gas.wf g ->
        Scheduler.due (Gas.timing_of g) (to_uint millis) = true ->
        exists g1 average g',
          Gas.update_cache g sensor = Some g1
          /\ Gas.average_sensor_value g1 = Some average
          /\ let gallons := Gas.estimate_gallons_remaining_from_reading average in
             Gas.loop g millis sensor
             = Some (g',
                     Scheduler.diagnostics (Gas.timing_of g) (to_uint millis)
                     ++ [ Scheduler.passed; AnalogRead A1 sensor;
                          ShowGasMeter (Quantizer.get_num_display_blocks_for_gallons gallons);
                          ShowGasStatsRow 1 (float_to_int average) gallons ])).
Proof.
  split.
  - intros g millis sensor Hdue. unfold Scheduler.due in Hdue.
    apply negb_true_iff in Hdue. cbv zeta. now rewrite ohm_loop_due.
  - intros g millis sensor Hwf Hdue. unfold Scheduler.due in Hdue.
    apply negb_true_iff in Hdue.
    destruct (gas_loop_due g millis sensor Hwf Hdue) as (g1 & avg & E1 & E2 & El).
    exists g1, avg. eexists. split; [exact E1 |]. split; [exact E2 |]. exact El.
Qed.

Lemma due_tick_renders_witness :
  sensor_reads (snd (Ohm.loop (Ohm.setup 0) 500 243)) = [243]
  /\ In (ShowGasMeter (Some 12)) (snd (Ohm.loop (Ohm.setup 0) 500 243))
  /\ exists g1 average g',
      Gas.update_cache (Gas.setup 0) 300 = Some g1
      /\ Gas.average_sensor_value g1 = Some average
      /\ let gallons := Gas.estimate_gallons_remaining_from_reading average in
         Gas.loop (Gas.setup 0) 500 300
         = Some (g',
                 Scheduler.diagnostics (Gas.timing_of (Gas.setup 0)) (to_uint 500)
                 ++ [ Scheduler.passed; AnalogRead A1 300;
                      ShowGasMeter (Quantizer.get_num_display_blocks_for_gallons gallons);
                      ShowGasStatsRow 1 (float_to_int average) gallons ]).
Proof.
  destruct due_tick_renders as (A & B).
  split; [vm_compute; reflexivity |].
  split.
  - rewrite (A (Ohm.setup 0) 500 243) by (vm_compute; reflexivity).
    vm_compute. do 11 right. left. reflexivity.
  - apply (B (Gas.setup 0) 500 300); [apply wf_setup | vm_compute; reflexivity].
Defined.

(** C9 as stated fails in the filtered sketch: with the reading 100 in the
    buffer, the due tick that reads 300 from the sensor hands 200, the
    average, to [show_gas_stats], and not the 300 it read. *)
Lemma filtered_stats_show_average :
  exists g1 tr1 g2 tr2,
    Gas.loop (Gas.setup 0) 500 100 = Some (g1, tr1)
    /\ Gas.loop g1 1000 300 = Some (g2, tr2)
    /\ sensor_reads tr2 = [300]
    /\ stats_sensor_values tr2 = [Some 200]
    /\ stats_sensor_values tr2 <> [Some 300].
Proof.
  eexists _, _, _, _.
  split; [vm_compute; reflexivity |]. split; [vm_compute; reflexivity |].
  split; [vm_compute; reflexivity |]. split; [vm_compute; reflexivity |].
  vm_compute. discriminate.
Qed.

(** ** The value of a converted integer

    For the record: below 2^24 the conversion of an integer to binary32
    loses nothing, so the sum that [arithmetic_mean] divides is the exact
    one. *)
Lemma float_of_int_value z :
  Z.abs z < 2 ^ prec ->
  exists q, to_Q (float_of_int z) = Some q /\ (q == inject_Z z)%Q.
Proof.
  intros Hz. destruct (Z.eq_dec z 0) as [-> | Nz].
  - exists (0 # 1)%Q. split; reflexivity.
  - destruct (float_of_int_repr z Nz Hz) as (s & m & e & -> & He & Hv).
    cbn [to_Q]. eexists. split; [reflexivity |].
    destruct e as [| p | p]; try lia; unfold Qeq, inject_Z; cbn [Qnum Qden].
    + rewrite Hv. cbn. lia.
    + rewrite Hv. change (- Z.neg p) with (Z.pos p).
      rewrite Pos2Z.inj_pow. lia.
Qed.

(** ** The whole converter range

    For every reading the 10-bit converter can return, the unfiltered
    pipeline is defined end to end: no cast or subtraction leaves the
    [int] range, and the display gets a block count in [0, 16]. *)
Lemma ohm_blocks_on_adc_range reading :
  0 <= reading <= 1023 -> exists n, ohm_blocks reading = Some n /\ 0 <= n <= 16.
Proof.
  intros Hr.
  assert (Hall : forallb (fun k => match ohm_blocks (Z.of_nat k) with
                                   | Some n => (0 <=? n) && (n <=? 16)
                                   | None => false
                                   end) (seq 0 1024) = true)
    by (vm_compute; reflexivity).
  rewrite forallb_forall in Hall. specialize (Hall (Z.to_nat reading)).
  rewrite Z2Nat.id in Hall by lia.
  destruct (ohm_blocks reading) as [n |].
  - exists n. split; [reflexivity |].
    assert (Hn : (0 <=? n) && (n <=? 16) = true) by (apply Hall, in_seq; lia).
    apply andb_true_iff in Hn as [H0 H1]. lia.
  - assert (Hn : false = true) by (apply Hall, in_seq; lia). discriminate.
Qed.

(** * Further properties of the code *)

(** ** The bar of the gas meter *)

Section MeterFacts.
Import Lcd.

Lemma write_cols_run fuel col bound cell :
  0 <= col <= bound -> bound <= 255 -> (Z.to_nat (bound - col) < fuel)%nat ->
  write_cols fuel col bound cell
  = Some (replicate (Z.to_nat (bound - col)) (LcdWrite cell)).
Proof.
  revert col. induction fuel as [| fuel IH]; intros col Hc Hb Hf; [lia |].
  cbn [write_cols]. destruct (Z.ltb_spec col bound) as [Hlt | Hge].
  - assert (E : to_uint8 (col + 1) = col + 1)
      by (unfold to_uint8; apply Z.mod_small; lia).
    rewrite E, IH by lia. simpl.
    replace (Z.to_nat (bound - col)) with (S (Z.to_nat (bound - (col + 1)))) by lia.
    reflexivity.
  - replace (bound - col) with 0 by lia. reflexivity.
Qed.

Lemma write_cols_skip fuel col bound cell :
  bound <= col -> write_cols (S fuel) col bound cell = Some [].
Proof.
  intros H. cbn [write_cols]. destruct (Z.ltb_spec col bound); [lia | reflexivity].
Qed.

(** A [uint8_t] counter never reaches a bound above 255. *)
Lemma write_cols_never_ends fuel col bound cell :
  0 <= col < 256 -> 256 <= bound -> write_cols fuel col bound cell = None.
Proof.
  revert col. induction fuel as [| fuel IH]; intros col Hc Hb; [reflexivity |].
  cbn [write_cols]. destruct (Z.ltb_spec col bound); [| lia].
  rewrite IH; [reflexivity | | assumption].
  unfold to_uint8. apply Z.mod_pos_bound. lia.
Qed.

Lemma map_replicate' {A B} (f : A -> B) n x :
  map f (replicate n x) = replicate n (f x).
Proof. induction n as [| n IH]; cbn; [reflexivity | now rewrite IH]. Qed.

End MeterFacts.

(** X1.  For a block count n in [0, 16], [show_gas_meter] moves to the
    start of row 0 and writes one full row of 16 cells: below 8 blocks, n
    filled cells, blanks up to column 12 and the letters G, A, S; from 8
    blocks on, the three inverse glyphs, n - 3 filled cells and blanks up
    to column 15.  Every loop ends within 17 iterations. *)
Theorem show_gas_meter_row (fuel : nat) (n : Z) :
  0 <= n <= 16 -> (17 <= fuel)%nat ->
  Lcd.show_gas_meter fuel n
  = Some (Lcd.SetCursor 0 0
          :: map Lcd.LcdWrite
               (if n <? 8
                then replicate (Z.to_nat n) 255 ++ replicate (Z.to_nat (13 - n)) 32
                     ++ [71; 65; 83]
                else [0; 1; 2] ++ replicate (Z.to_nat (n - 3)) 255
                     ++ replicate (Z.to_nat (16 - n)) 32))
  /\ (forall ops, Lcd.show_gas_meter fuel n = Some ops -> length (cells ops) = 16%nat).
Proof.
  intros Hn Hf.
  assert (E8 : Lcd.to_uint8 n = n) by (unfold Lcd.to_uint8; apply Z.mod_small; lia).
  assert (Main : Lcd.show_gas_meter fuel n
    = Some (Lcd.SetCursor 0 0
          :: map Lcd.LcdWrite
               (if n <? 8
                then replicate (Z.to_nat n) 255 ++ replicate (Z.to_nat (13 - n)) 32
                     ++ [71; 65; 83]
                else [0; 1; 2] ++ replicate (Z.to_nat (n - 3)) 255
                     ++ replicate (Z.to_nat (16 - n)) 32))).
  { unfold Lcd.show_gas_meter. rewrite E8.
    change (Lcd.to_uint8 0) with 0. change (Lcd.to_uint8 3) with 3.
    destruct (Z.ltb_spec n 8) as [Hlt | Hge].
    - rewrite !write_cols_run by lia. simpl.
      rewrite Z.sub_0_r, !map_app, !map_replicate'. reflexivity.
    - rewrite !write_cols_run by lia. simpl.
      rewrite !map_app, !map_replicate'. reflexivity. }
  split; [exact Main |].
  intros ops E. rewrite Main in E. inversion E; subst ops. clear E Main.
  unfold cells. cbn [flat_map app].
  assert (C : forall l, flat_map (fun op => match op with
                                            | Lcd.LcdWrite c => [c]
                                            | _ => []
                                            end) (map Lcd.LcdWrite l) = l).
  { induction l as [| x l IHl]; cbn; [reflexivity | now rewrite IHl]. }
  rewrite C. destruct (n <? 8) eqn:E; [apply Z.ltb_lt in E | apply Z.ltb_ge in E];
    cbn [length]; rewrite !length_app, !length_replicate; cbn [length]; lia.
Qed.

Lemma show_gas_meter_row_witness :
  cells <$> Lcd.show_gas_meter 17 5
  = Some [255; 255; 255; 255; 255; 32; 32; 32; 32; 32; 32; 32; 32; 71; 65; 83]
  /\ cells <$> Lcd.show_gas_meter 17 12
     = Some [0; 1; 2; 255; 255; 255; 255; 255; 255; 255; 255; 255; 32; 32; 32; 32].
Proof.
  split.
  - destruct (show_gas_meter_row 17 5) as [E _]; [lia | lia |]. rewrite E. reflexivity.
  - destruct (show_gas_meter_row 17 12) as [E _]; [lia | lia |]. rewrite E. reflexivity.
Defined.

(** X2.  A block count of 256 or more never comes back from
    [show_gas_meter]: its [uint8_t] column counter wraps before it reaches
    the count, so no number of iterations ends the loop. *)
Theorem show_gas_meter_hangs (fuel : nat) (n : Z) :
  256 <= n -> Lcd.show_gas_meter fuel n = None.
Proof.
  intros Hn. unfold Lcd.show_gas_meter.
  destruct (Z.ltb_spec n 8); [lia |].
  rewrite (write_cols_never_ends fuel (Lcd.to_uint8 3) n);
    [reflexivity | | assumption].
  unfold Lcd.to_uint8. apply Z.mod_pos_bound. lia.
Qed.

Lemma show_gas_meter_hangs_witness :
  Lcd.show_gas_meter 1000 300 = None.
Proof. apply show_gas_meter_hangs. lia. Defined.

Ltac forall_cells tac :=
  repeat first [apply List.Forall_nil | apply List.Forall_cons; [tac |]].

(** X3.  Whatever block count the quantizer returns, [show_gas_meter]
    comes back and writes exactly as many cells as [setup()] configured
    columns (16); the bar is that many cells long (the first n cells are
    not blank, the next one, if any, is); and every custom glyph it
    writes is one [setup()] defined. *)
Theorem quantized_bar_fits_display (gallons : float) (n : Z) :
  Quantizer.get_num_display_blocks_for_gallons gallons = Some n ->
  exists ops,
    Lcd.show_gas_meter 17 n = Some ops
    /\ configured_columns Lcd.setup_calls = [Z.of_nat (length (cells ops))]
    /\ Forall (fun c => c <> Lcd.EMPTY_BLOCK) (take (Z.to_nat n) (cells ops))
    /\ (n < 16 -> cells ops !! Z.to_nat n = Some Lcd.EMPTY_BLOCK)
    /\ Forall (fun c => c < 8 -> In c (defined_slots Lcd.setup_calls)) (cells ops).
Proof.
  intros Hq. apply blocks_in_range in Hq.
  assert (Hk : (Z.to_nat n <= 16)%nat) by lia.
  rewrite <- (Z2Nat.id n) by lia. generalize dependent (Z.to_nat n).
  clear. intros k Hk.
  do 17 (destruct k as [| k];
         [ eexists; split; [vm_compute; reflexivity |];
           split; [reflexivity |];
           split; [vm_compute; forall_cells ltac:(discriminate) |];
           split; [intros Hlt; first [reflexivity | exfalso; vm_compute in Hlt; discriminate Hlt] |];
           vm_compute;
           forall_cells ltac:(intros Hc; first [tauto | exfalso; apply Hc; reflexivity
                                               | discriminate Hc])
         | ]).
  lia.
Qed.

Lemma quantized_bar_fits_display_witness :
  exists ops,
    Lcd.show_gas_meter 17 12 = Some ops
    /\ configured_columns Lcd.setup_calls = [Z.of_nat (length (cells ops))]
    /\ Forall (fun c => c <> Lcd.EMPTY_BLOCK) (take (Z.to_nat 12) (cells ops))
    /\ (12 < 16 -> cells ops !! Z.to_nat 12 = Some Lcd.EMPTY_BLOCK)
    /\ Forall (fun c => c < 8 -> In c (defined_slots Lcd.setup_calls)) (cells ops).
Proof.
  apply (quantized_bar_fits_display (decimal 1426 100) 12). vm_compute. reflexivity.
Defined.

(** ** Number fields *)

Section NumberFacts.
Import Lcd.

Lemma place_value_small i : (i <= 4)%nat -> place_value i = Some (10 ^ Z.of_nat i).
Proof.
  intros Hi. do 5 (destruct i as [| i]; [reflexivity |]). lia.
Qed.

Lemma cells_writes l : cells (map LcdWrite l) = l.
Proof.
  unfold cells. induction l as [| x l IH]; cbn; [reflexivity | now rewrite IH].
Qed.

Lemma quot_rem_small r p :
  0 < p -> - (10 * p) < r < 10 * p ->
  - 9 <= Z.quot r p <= 9
  /\ - p < Z.rem r p < p
  /\ (0 <= r -> 0 <= Z.quot r p /\ 0 <= Z.rem r p)
  /\ (r <= 0 -> Z.quot r p <= 0 /\ Z.rem r p <= 0)
  /\ Z.min 0 r <= Z.quot r p * p <= Z.max 0 r.
Proof.
  intros Hp Hr. destruct (quot_bounds r p Hp) as (m & E & Rp & Rn).
  assert (Em : m = Z.rem r p) by (pose proof (Z.quot_rem' r p); lia).
  rewrite <- Em. set (q := Z.quot r p) in *. clearbody q.
  destruct (Z.le_gt_cases 0 r) as [H0 | H0].
  - specialize (Rp H0). assert (0 <= q) by nia. assert (q <= 9) by nia.
    repeat split; try lia; nia.
  - specialize (Rn H0). assert (q <= 0) by nia. assert (- 9 <= q) by nia.
    repeat split; try lia; nia.
Qed.

(** Within its places, a number is printed as its digit cells. *)
Lemma print_places_cells todo residue radix :
  (todo <= 5)%nat ->
  - 10 ^ Z.of_nat todo < residue < 10 ^ Z.of_nat todo ->
  INT_MIN <= residue <= INT_MAX ->
  print_places todo residue radix
  = Some (map LcdWrite (place_point radix (digit_cells todo residue))).
Proof.
  revert residue. induction todo as [| i IH]; intros residue Ht Hr Hi; [reflexivity |].
  cbn [print_places digit_cells place_point].
  rewrite place_value_small by lia. cbn [mbind option_bind].
  assert (Hp : 0 < 10 ^ Z.of_nat i) by (apply Z.pow_pos_nonneg; lia).
  rewrite Nat2Z.inj_succ, Z.pow_succ_r in Hr by lia.
  destruct (quot_rem_small residue (10 ^ Z.of_nat i) Hp Hr) as (Hq & Hm & _ & _ & Ha).
  set (p := 10 ^ Z.of_nat i) in *. set (q := Z.quot residue p) in *.
  assert (Erem : residue - q * p = Z.rem residue p)
    by (pose proof (Z.quot_rem' residue p); subst q; lia).
  assert (Hrem : Z.rem residue p = Z.rem residue p) by reflexivity.
  set (m := Z.rem residue p) in *. clearbody q m.
  unfold INT_MIN, INT_MAX, char_0 in *.
  assert (Hs : -32768 <= q * p <= 32767) by lia.
  rewrite (int_checked_Some (48 + q)) by (unfold INT_MIN, INT_MAX; lia).
  cbn [mbind option_bind].
  rewrite (int_checked_Some (q * p)) by (unfold INT_MIN, INT_MAX; lia).
  cbn [mbind option_bind].
  rewrite (int_checked_Some (residue - q * p)) by (unfold INT_MIN, INT_MAX; lia).
  cbn [mbind option_bind].
  rewrite Erem, IH by (try assumption; lia). cbn [mbind option_bind].
  assert (E8 : to_uint8 (48 + q) = 48 + q) by (unfold to_uint8; apply Z.mod_small; lia).
  rewrite E8. f_equal. cbn [map]. f_equal.
  assert (Hlen : forall k n, length (digit_cells k n) = k).
  { induction k as [| k IHk]; intros n; cbn; [reflexivity | now rewrite IHk]. }
  rewrite Hlen, map_app. f_equal.
  destruct (radix =? Z.of_nat i); reflexivity.
Qed.

Lemma digit_cells_length k n : length (digit_cells k n) = k.
Proof. revert n. induction k as [| k IH]; intros n; cbn; [reflexivity | now rewrite IH]. Qed.

Lemma digits_value_cons c l :
  digits_value (c :: l) = (c - char_0) * 10 ^ Z.of_nat (length l) + digits_value l.
Proof.
  unfold digits_value. cbn [fold_left].
  assert (G : forall l acc,
             fold_left (fun acc c => 10 * acc + (c - char_0)) l acc
             = acc * 10 ^ Z.of_nat (length l)
               + fold_left (fun acc c => 10 * acc + (c - char_0)) l 0).
  { clear. induction l as [| x l IH]; intros acc; cbn [fold_left length].
    - cbn. lia.
    - rewrite IH, (IH (10 * 0 + (x - char_0))).
      rewrite Nat2Z.inj_succ, Z.pow_succ_r by lia. ring. }
  rewrite G. ring.
Qed.

End NumberFacts.

Section NumberFields.
Import Lcd.

Lemma digit_cells_value k n :
  - 10 ^ Z.of_nat k < n < 10 ^ Z.of_nat k -> digits_value (digit_cells k n) = n.
Proof.
  revert n. induction k as [| i IH]; intros n Hn.
  - cbn in Hn. cbn. lia.
  - cbn [digit_cells]. rewrite digits_value_cons, digit_cells_length.
    assert (Hp : 0 < 10 ^ Z.of_nat i) by (apply Z.pow_pos_nonneg; lia).
    rewrite Nat2Z.inj_succ, Z.pow_succ_r in Hn by lia.
    destruct (quot_rem_small n _ Hp Hn) as (_ & Hm & _).
    rewrite IH by exact Hm. pose proof (Z.quot_rem' n (10 ^ Z.of_nat i)). lia.
Qed.

Lemma digit_cells_digits k n :
  0 <= n < 10 ^ Z.of_nat k -> Forall is_digit_cell (digit_cells k n).
Proof.
  revert n. induction k as [| i IH]; intros n Hn; [constructor |].
  cbn [digit_cells].
  assert (Hp : 0 < 10 ^ Z.of_nat i) by (apply Z.pow_pos_nonneg; lia).
  rewrite Nat2Z.inj_succ, Z.pow_succ_r in Hn by lia.
  destruct (quot_rem_small n (10 ^ Z.of_nat i) Hp ltac:(lia))
    as (Hq & Hm & Hpos & _ & _).
  destruct (Hpos ltac:(lia)) as [Hq0 Hm0].
  constructor; [unfold is_digit_cell; lia | apply IH; lia].
Qed.

Lemma digit_cells_negative k n :
  - 10 ^ Z.of_nat k < n < 0 ->
  Forall (fun c => char_0 - 9 <= c <= char_0) (digit_cells k n)
  /\ Exists (fun c => c < char_0) (digit_cells k n).
Proof.
  revert n. induction k as [| i IH]; intros n Hn; [cbn in Hn; lia |].
  cbn [digit_cells].
  assert (Hp : 0 < 10 ^ Z.of_nat i) by (apply Z.pow_pos_nonneg; lia).
  rewrite Nat2Z.inj_succ, Z.pow_succ_r in Hn by lia.
  destruct (quot_rem_small n (10 ^ Z.of_nat i) Hp ltac:(lia))
    as (Hq & Hm & _ & Hneg & _).
  destruct (Hneg ltac:(lia)) as [Hq0 Hm0].
  destruct (Z.eq_dec (Z.rem n (10 ^ Z.of_nat i)) 0) as [E0 | N0].
  - assert (Hqn : Z.quot n (10 ^ Z.of_nat i) < 0).
    { pose proof (Z.quot_rem' n (10 ^ Z.of_nat i)). nia. }
    split.
    + constructor; [lia |]. rewrite E0. clear.
      induction i as [| i IHi]; [constructor |]. cbn [digit_cells].
      rewrite Z.quot_0_l, Z.rem_0_l
        by (apply Z.neq_sym, Z.lt_neq, Z.pow_pos_nonneg; lia).
      constructor; [unfold char_0; lia | exact IHi].
    + apply Exists_cons_hd. lia.
  - destruct (IH (Z.rem n (10 ^ Z.of_nat i)) ltac:(lia)) as [A B].
    split; [constructor; [lia | exact A] | apply Exists_cons_tl; exact B].
Qed.

Lemma place_point_length radix ds :
  length (place_point radix ds)
  = (length ds
     + if ((0 <=? radix)%Z && (radix <? Z.of_nat (length ds))%Z)%bool then 1 else 0)%nat.
Proof.
  induction ds as [| d rest IH].
  { cbn [place_point length].
    destruct (Z.leb_spec 0 radix), (Z.ltb_spec radix (Z.of_nat 0)); cbn; lia. }
  cbn [place_point length]. rewrite length_app, IH.
  destruct (Z.eqb_spec radix (Z.of_nat (length rest))) as [E | N];
    destruct (Z.leb_spec 0 radix), (Z.ltb_spec radix (Z.of_nat (length rest))),
      (Z.ltb_spec radix (Z.of_nat (S (length rest)))); cbn; lia.
Qed.

Lemma place_point_at radix ds :
  0 <= radix < Z.of_nat (length ds) ->
  place_point radix ds !! (length ds - Z.to_nat radix)%nat = Some char_point.
Proof.
  induction ds as [| d rest IH]; intros Hr; [cbn in Hr; lia |].
  cbn [place_point length] in *.
  destruct (Z.eqb_spec radix (Z.of_nat (length rest))) as [E | N].
  - replace (S (length rest) - Z.to_nat radix)%nat with 1%nat by lia. reflexivity.
  - replace (S (length rest) - Z.to_nat radix)%nat
      with (S (length rest - Z.to_nat radix))%nat by lia.
    cbn. apply IH. lia.
Qed.

(** Whatever is printed, the field has one cell per place and the point
    where [place_point] puts it. *)
Lemma print_places_shape todo residue radix ops :
  print_places todo residue radix = Some ops ->
  exists ds, length ds = todo /\ ops = map LcdWrite (place_point radix ds).
Proof.
  revert residue ops. induction todo as [| i IH]; intros residue ops.
  - cbn. intros E. inversion E. now exists [].
  - cbn [print_places].
    destruct (place_value i) as [p |]; cbn [mbind option_bind]; [| discriminate].
    destruct (int_checked (char_0 + Z.quot residue p)) as [code |];
      cbn [mbind option_bind]; [| discriminate].
    destruct (int_checked (Z.quot residue p * p)) as [scaled |];
      cbn [mbind option_bind]; [| discriminate].
    destruct (int_checked (residue - scaled)) as [residue' |];
      cbn [mbind option_bind]; [| discriminate].
    destruct (print_places i residue' radix) as [rest |] eqn:Er;
      cbn [mbind option_bind]; [| discriminate].
    intros E. inversion E; subst ops. clear E.
    destruct (IH _ _ Er) as (ds & Hlen & ->).
    exists (to_uint8 code :: ds). split; [cbn; now rewrite Hlen |].
    cbn [place_point map]. rewrite Hlen, map_app.
    destruct (radix =? Z.of_nat i); reflexivity.
Qed.

End NumberFields.

(** X4.  For a number that fits its places, 0 <= number < 10^digits with
    at most 5 places, [print_number] writes the decimal numeral of the
    number, zero-padded to [digits] cells, most significant digit first
    (with the point after the digit of place [radix], if there is one):
    the digit cells are ASCII digits and spell the number back. *)
Theorem print_number_spells_number (number digits radix : Z) :
  0 <= digits <= 5 -> 0 <= number < 10 ^ digits -> number <= INT_MAX ->
  exists ds,
    Lcd.print_number number digits radix
    = Some (map Lcd.LcdWrite (place_point radix ds))
    /\ length ds = Z.to_nat digits
    /\ Forall is_digit_cell ds
    /\ digits_value ds = number.
Proof.
  intros Hd Hn Hmax. exists (digit_cells (Z.to_nat digits) number).
  assert (E : Z.of_nat (Z.to_nat digits) = digits) by lia.
  unfold Lcd.print_number. unfold INT_MAX in Hmax.
  rewrite print_places_cells
    by (try rewrite E; unfold INT_MIN, INT_MAX; lia).
  split; [reflexivity |]. split; [apply digit_cells_length |].
  split; [apply digit_cells_digits | apply digit_cells_value]; rewrite E; lia.
Qed.

Lemma print_number_spells_number_witness :
  exists ds,
    Lcd.print_number 71 3 1 = Some (map Lcd.LcdWrite (place_point 1 ds))
    /\ length ds = Z.to_nat 3
    /\ Forall is_digit_cell ds
    /\ digits_value ds = 71.
Proof.
  apply (print_number_spells_number 71 3 1); [lia | lia | unfold INT_MAX; lia].
Defined.

(** X5.  Whatever the number, a field that [print_number] prints has a
    fixed layout: one cell per place, plus the point when 0 <= radix <
    digits, which then sits in cell [digits - radix] of the field. *)
Theorem print_number_field_layout (number digits radix : Z) (ops : list Lcd.lcd_op) :
  Lcd.print_number number digits radix = Some ops ->
  0 <= digits ->
  Z.of_nat (length (cells ops))
  = digits + (if (0 <=? radix) && (radix <? digits) then 1 else 0)
  /\ (0 <= radix < digits ->
      cells ops !! Z.to_nat (digits - radix) = Some Lcd.char_point).
Proof.
  intros E Hd. unfold Lcd.print_number in E.
  destruct (print_places_shape _ _ _ _ E) as (ds & Hlen & ->).
  rewrite cells_writes, place_point_length, Hlen. split.
  - rewrite Z2Nat.id by lia.
    destruct ((0 <=? radix) && (radix <? digits)); lia.
  - intros Hr. replace (Z.to_nat (digits - radix)) with (length ds - Z.to_nat radix)%nat by lia.
    apply place_point_at. lia.
Qed.

Lemma print_number_field_layout_witness :
  let ops := map Lcd.LcdWrite [48; 45; 46; 43] in
  Lcd.print_number (-35) 3 1 = Some ops
  /\ Z.of_nat (length (cells ops)) = 3 + 1
  /\ cells ops !! Z.to_nat (3 - 1) = Some Lcd.char_point.
Proof.
  assert (E : Lcd.print_number (-35) 3 1 = Some (map Lcd.LcdWrite [48; 45; 46; 43]))
    by (vm_compute; reflexivity).
  destruct (print_number_field_layout _ _ _ _ E ltac:(lia)) as [A B].
  split; [exact E |]. split; [exact A | apply B; lia].
Defined.

(** X6.  A negative number within its places, -10^digits < number < 0 with
    at most 5 places, is not printed as a numeral: each digit cell is the
    character '0' lowered by the digit of that place, so none is above '0'
    and at least one is below it. *)
Theorem print_number_negative_garbles (number digits radix : Z) :
  0 <= digits <= 5 -> - 10 ^ digits < number < 0 -> INT_MIN <= number ->
  exists ds,
    Lcd.print_number number digits radix
    = Some (map Lcd.LcdWrite (place_point radix ds))
    /\ length ds = Z.to_nat digits
    /\ Forall (fun c => Lcd.char_0 - 9 <= c <= Lcd.char_0) ds
    /\ Exists (fun c => c < Lcd.char_0) ds
    /\ digits_value ds = number.
Proof.
  intros Hd Hn Hmin. exists (digit_cells (Z.to_nat digits) number).
  assert (E : Z.of_nat (Z.to_nat digits) = digits) by lia.
  unfold Lcd.print_number. unfold INT_MIN in Hmin.
  rewrite print_places_cells
    by (try rewrite E; unfold INT_MIN, INT_MAX; lia).
  split; [reflexivity |]. split; [apply digit_cells_length |].
  destruct (digit_cells_negative (Z.to_nat digits) number) as [A B];
    [rewrite E; lia |].
  split; [exact A |]. split; [exact B |].
  apply digit_cells_value. rewrite E. lia.
Qed.

Lemma print_number_negative_garbles_witness :
  cells <$> Lcd.print_number (-35) 3 1 = Some [48; 45; 46; 43]
  /\ exists ds,
      Lcd.print_number (-35) 3 1 = Some (map Lcd.LcdWrite (place_point 1 ds))
      /\ length ds = Z.to_nat 3
      /\ Forall (fun c => Lcd.char_0 - 9 <= c <= Lcd.char_0) ds
      /\ Exists (fun c => c < Lcd.char_0) ds
      /\ digits_value ds = -35.
Proof.
  split; [vm_compute; reflexivity |].
  apply (print_number_negative_garbles (-35) 3 1); [lia | lia | unfold INT_MIN; lia].
Defined.

(** ** The stats line *)

Section StatsFacts.
Import Lcd.

Lemma place_point_none radix ds : radix < 0 -> place_point radix ds = ds.
Proof.
  intros Hr. induction ds as [| d rest IH]; [reflexivity |].
  cbn [place_point]. destruct (Z.eqb_spec radix (Z.of_nat (length rest))); [lia |].
  cbn. now rewrite IH.
Qed.

Lemma cells_cons_cursor c r ops : cells (SetCursor c r :: ops) = cells ops.
Proof. reflexivity. Qed.

Lemma cells_app a b : cells (a ++ b) = cells a ++ cells b.
Proof. unfold cells. apply flat_map_app. Qed.

Lemma cells_cons_write c ops : cells (LcdWrite c :: ops) = c :: cells ops.
Proof. reflexivity. Qed.

Lemma cells_nil : cells [] = [].
Proof. reflexivity. Qed.


Lemma print_number_width number digits radix ops :
  print_number number digits radix = Some ops -> 0 <= digits ->
  Z.of_nat (length (cells ops))
  = digits + (if (0 <=? radix) && (radix <? digits) then 1 else 0).
Proof.
  intros E Hd. unfold print_number in E.
  destruct (print_places_shape _ _ _ _ E) as (ds & Hlen & ->).
  rewrite cells_writes, place_point_length, Hlen, Nat2Z.inj_add, Z2Nat.id by lia.
  destruct ((0 <=? radix) && (radix <? digits)); reflexivity.
Qed.

End StatsFacts.

Ltac count_cells :=
  repeat first [ rewrite cells_cons_cursor | rewrite cells_cons_write
               | rewrite cells_app | rewrite cells_nil | rewrite length_app
               | progress cbn [length app] ].

(** X7.  In the filtered sketch, for a sensor value in 0..9999 and a
    gallons figure whose tenths, cut to an integer, are in 0..999, the
    stats line reads, from the start of its row: the sensor value in four
    digits, a blank, the gallons as two digits, the point and one decimal,
    and the letter g. *)
Theorem gas_stats_line_reads (row sensor_value : Z) (gallons : float) (tenths : Z) :
  0 <= sensor_value <= 9999 ->
  float_to_int (fmul gallons (float_of_int 10)) = Some tenths ->
  0 <= tenths <= 999 ->
  exists reading a b c,
    GasLcd.show_gas_stats row sensor_value gallons
    = Some (Lcd.SetCursor 0 row
            :: map Lcd.LcdWrite
                 (reading ++ [Lcd.EMPTY_BLOCK] ++ [a; b; Lcd.char_point; c]
                  ++ [Lcd.char_g]))
    /\ length reading = 4%nat
    /\ Forall is_digit_cell reading
    /\ digits_value reading = sensor_value
    /\ Forall is_digit_cell [a; b; c]
    /\ digits_value [a; b; c] = tenths.
Proof.
  intros Hs Ht Hr.
  exists (digit_cells 4 sensor_value).
  assert (E3 : exists a b c, digit_cells 3 tenths = [a; b; c])
    by (cbn [digit_cells]; eauto).
  destruct E3 as (a & b & c & E3). exists a, b, c.
  unfold GasLcd.show_gas_stats, Lcd.print_number.
  change (Z.to_nat 4) with 4%nat. change (Z.to_nat 3) with 3%nat.
  rewrite print_places_cells by (cbn; unfold INT_MIN, INT_MAX; lia).
  cbn [mbind option_bind]. rewrite Ht. cbn [mbind option_bind].
  rewrite print_places_cells by (cbn; unfold INT_MIN, INT_MAX; lia).
  cbn [mbind option_bind]. rewrite place_point_none, E3 by lia.
  split.
  - rewrite ?map_app. reflexivity.
  - split; [apply digit_cells_length |].
    split; [apply digit_cells_digits; cbn; lia |].
    split; [apply digit_cells_value; cbn; lia |].
    rewrite <- E3.
    split; [apply digit_cells_digits; cbn; lia | apply digit_cells_value; cbn; lia].
Qed.

Lemma gas_stats_line_reads_witness :
  let gallons := Gas.estimate_gallons_remaining_from_reading (float_of_int 300) in
  cells <$> GasLcd.show_gas_stats 1 300 gallons
  = Some [48; 51; 48; 48; 32; 48; 55; 46; 49; 103]
  /\ exists reading a b c,
      GasLcd.show_gas_stats 1 300 gallons
      = Some (Lcd.SetCursor 0 1
              :: map Lcd.LcdWrite
                   (reading ++ [Lcd.EMPTY_BLOCK] ++ [a; b; Lcd.char_point; c]
                    ++ [Lcd.char_g]))
      /\ length reading = 4%nat
      /\ Forall is_digit_cell reading
      /\ digits_value reading = 300
      /\ Forall is_digit_cell [a; b; c]
      /\ digits_value [a; b; c] = 71.
Proof.
  split; [vm_compute; reflexivity |].
  apply (gas_stats_line_reads 1 300 _ 71); [lia | vm_compute; reflexivity | lia].
Defined.

(** X8.  Whatever the values, a stats line that is written has a fixed
    width: 10 cells in the filtered sketch and 16 cells, the whole row
    that [setup()] configures, in the unfiltered one; it starts at column
    0 of its row. *)
Theorem stats_line_width :
  (forall row sensor_value gallons ops,
      GasLcd.show_gas_stats row sensor_value gallons = Some ops ->
      length (cells ops) = 10%nat /\ head ops = Some (Lcd.SetCursor 0 row))
  /\ (forall sensor_value ohmage gallons ops,
        OhmLcd.show_gas_stats sensor_value ohmage gallons = Some ops ->
        configured_columns Lcd.setup_calls = [Z.of_nat (length (cells ops))]
        /\ head ops = Some (Lcd.SetCursor 0 1)).
Proof.
  split.
  - intros row sensor_value gallons ops. unfold GasLcd.show_gas_stats.
    destruct (Lcd.print_number sensor_value 4 (-1)) as [rs |] eqn:E1;
      cbn [mbind option_bind]; [| discriminate].
    destruct (float_to_int _) as [tenths |]; cbn [mbind option_bind]; [| discriminate].
    destruct (Lcd.print_number tenths 3 1) as [ts |] eqn:E2;
      cbn [mbind option_bind]; [| discriminate].
    intros E. inversion E; subst ops. split; [| reflexivity].
    apply print_number_width in E1; [| lia]. apply print_number_width in E2; [| lia].
    cbn in E1, E2. count_cells. lia.
  - intros sensor_value ohmage gallons ops. unfold OhmLcd.show_gas_stats.
    destruct (Lcd.print_number sensor_value 4 (-1)) as [rs |] eqn:E1;
      cbn [mbind option_bind]; [| discriminate].
    destruct (float_to_int ohmage) as [ohms |]; cbn [mbind option_bind]; [| discriminate].
    destruct (Lcd.print_number ohms 4 (-1)) as [os |] eqn:E3;
      cbn [mbind option_bind]; [| discriminate].
    destruct (float_to_int _) as [tenths |]; cbn [mbind option_bind]; [| discriminate].
    destruct (Lcd.print_number tenths 3 1) as [ts |] eqn:E2;
      cbn [mbind option_bind]; [| discriminate].
    intros E. inversion E; subst ops. split; [| reflexivity].
    apply print_number_width in E1; [| lia]. apply print_number_width in E2; [| lia].
    apply print_number_width in E3; [| lia].
    cbn in E1, E2, E3. count_cells. cbn [configured_columns Lcd.setup_calls flat_map app].
    f_equal. lia.
Qed.

Lemma stats_line_width_witness :
  let gallons := Gas.estimate_gallons_remaining_from_reading (float_of_int 1023) in
  let ops := Lcd.SetCursor 0 1
             :: map Lcd.LcdWrite [49; 48; 50; 51; 32; 45; 40; 46; 40; 103] in
  GasLcd.show_gas_stats 1 1023 gallons = Some ops
  /\ length (cells ops) = 10%nat
  /\ head ops = Some (Lcd.SetCursor 0 1).
Proof.
  destruct stats_line_width as (A & _).
  assert (E : GasLcd.show_gas_stats 1 1023
                (Gas.estimate_gallons_remaining_from_reading (float_of_int 1023))
              = Some (Lcd.SetCursor 0 1
                      :: map Lcd.LcdWrite [49; 48; 50; 51; 32; 45; 40; 46; 40; 103]))
    by (vm_compute; reflexivity).
  split; [exact E | exact (A _ _ _ _ E)].
Defined.

(** ** A whole tick on the display *)

(** X9.  In the unfiltered sketch, on every due tick whose reading is in
    the converter range 0..1023, every value handed to the display is
    defined, the meter call rewrites the 16 cells of row 0 and the stats
    call the 16 cells of row 1, and the first four cells of the stats line
    spell the raw reading in decimal. *)
Theorem ohm_tick_rewrites_display (g0 : Ohm.globals) (millis reading : Z) :
  Scheduler.due g0 (to_uint millis) = true ->
  0 <= reading <= 1023 ->
  exists n ohmage gallons meter stats,
    snd (Ohm.loop g0 millis reading)
    = Scheduler.diagnostics g0 (to_uint millis)
      ++ [ Scheduler.passed; AnalogRead A0 reading;
           ShowGasMeter (Some n);
           ShowGasStatsOhm reading (Some ohmage) (Some gallons) ]
    /\ Lcd.show_gas_meter 17 n = Some meter
    /\ length (cells meter) = 16%nat
    /\ OhmLcd.show_gas_stats reading ohmage gallons = Some stats
    /\ length (cells stats) = 16%nat
    /\ Forall is_digit_cell (take 4 (cells stats))
    /\ digits_value (take 4 (cells stats)) = reading.
Proof.
  intros Hdue Hr. unfold Scheduler.due in Hdue. apply negb_true_iff in Hdue.
  rewrite ohm_loop_due by assumption.
  set (check := fun r : Z =>
    match Ohm.estimate_ohmage_from_reading r with
    | Some o =>
        match Quantizer.get_num_display_blocks_for_gallons (Ohm.get_gallons_for_ohmage o) with
        | Some n =>
            match Lcd.show_gas_meter 17 n,
                  OhmLcd.show_gas_stats r o (Ohm.get_gallons_for_ohmage o) with
            | Some m, Some s =>
                (length (cells m) =? 16)%nat && (length (cells s) =? 16)%nat
                && forallb (fun c => (48 <=? c) && (c <=? 57)) (take 4 (cells s))
                && (digits_value (take 4 (cells s)) =? r)
            | _, _ => false
            end
        | None => false
        end
    | None => false
    end).
  assert (Hall : forallb (fun k => check (Z.of_nat k)) (seq 0 1024) = true)
    by (vm_compute; reflexivity).
  rewrite forallb_forall in Hall. specialize (Hall (Z.to_nat reading)).
  rewrite Z2Nat.id in Hall by lia.
  assert (Hc : check reading = true) by (apply Hall, in_seq; lia).
  clear Hall. unfold check in Hc. clear check.
  destruct (Ohm.estimate_ohmage_from_reading reading) as [o |]; [| discriminate].
  destruct (Quantizer.get_num_display_blocks_for_gallons (Ohm.get_gallons_for_ohmage o))
    as [n |] eqn:En; [| discriminate].
  destruct (Lcd.show_gas_meter 17 n) as [m |] eqn:Em; [| discriminate].
  destruct (OhmLcd.show_gas_stats reading o (Ohm.get_gallons_for_ohmage o))
    as [s |] eqn:Es; [| discriminate].
  apply andb_true_iff in Hc as [Hc Hv]. apply andb_true_iff in Hc as [Hc Hd].
  apply andb_true_iff in Hc as [Hm Hs].
  exists n, o, (Ohm.get_gallons_for_ohmage o), m, s.
  split; [cbn [fmap option_fmap option_map mbind option_bind]; now rewrite En |].
  split; [exact Em |]. split; [now apply Nat.eqb_eq |].
  split; [exact Es |]. split; [now apply Nat.eqb_eq |].
  split; [| now apply Z.eqb_eq].
  apply Forall_forall. intros c Hin. rewrite forallb_forall in Hd.
  apply list_elem_of_In, Hd, andb_true_iff in Hin as [H1 H2].
  unfold is_digit_cell, Lcd.char_0. lia.
Qed.

Lemma ohm_tick_rewrites_display_witness :
  Scheduler.due (Ohm.setup 0) (to_uint 500) = true
  /\ exists n ohmage gallons meter stats,
      snd (Ohm.loop (Ohm.setup 0) 500 243)
      = Scheduler.diagnostics (Ohm.setup 0) (to_uint 500)
        ++ [ Scheduler.passed; AnalogRead A0 243;
             ShowGasMeter (Some n);
             ShowGasStatsOhm 243 (Some ohmage) (Some gallons) ]
      /\ Lcd.show_gas_meter 17 n = Some meter
      /\ length (cells meter) = 16%nat
      /\ OhmLcd.show_gas_stats 243 ohmage gallons = Some stats
      /\ length (cells stats) = 16%nat
      /\ Forall is_digit_cell (take 4 (cells stats))
      /\ digits_value (take 4 (cells stats)) = 243.
Proof.
  split; [vm_compute; reflexivity |].
  apply (ohm_tick_rewrites_display (Ohm.setup 0) 500 243); [vm_compute; reflexivity | lia].
Defined.

(** ** The rolling window *)

Section WindowFacts.
Import Gas.

Lemma last_n_length {A} n (l : list A) :
  (n <= length l)%nat -> length (last_n n l) = n.
Proof. intros H. unfold last_n. rewrite length_drop. lia. Qed.

Lemma last_n_snoc (h : list Z) r :
  (100 <= length h)%nat -> last_n 100 (h ++ [r]) = drop 1 (last_n 100 h) ++ [r].
Proof.
  intros H. unfold last_n. rewrite length_app. cbn [length].
  rewrite drop_drop, drop_app_le by lia. f_equal. f_equal. lia.
Qed.

Lemma last_n_all {A} (l : list A) : last_n (length l) l = l.
Proof. unfold last_n. now rewrite Nat.sub_diag. Qed.

Lemma last_n_app_r {A} n (l1 l2 : list A) :
  (n <= length l2)%nat -> last_n n (l1 ++ l2) = last_n n l2.
Proof.
  intros H. unfold last_n. rewrite length_app, drop_app_ge by lia. f_equal. lia.
Qed.

(** Overwriting the oldest cell of a rotated window gives the rotation of
    the window moved on by one reading. *)
Lemma rotated_push (w : list Z) (k : nat) r :
  length w = 100%nat -> (k < 100)%nat ->
  <[k := r]> (rotated k w) = rotated (S k mod 100) (drop 1 w ++ [r]).
Proof.
  intros Hw Hk. destruct w as [| x w']; [discriminate |].
  cbn [length] in Hw. assert (Hw' : length w' = 99%nat) by lia.
  unfold rotated. cbn [drop]. rewrite drop_0, length_app. cbn [length].
  rewrite Hw'. change (S 99 - k)%nat with (100 - k)%nat.
  rewrite insert_app_r_alt by (rewrite length_drop; cbn [length]; lia).
  rewrite length_drop. cbn [length]. rewrite Hw'.
  replace (k - (100 - (100 - k)))%nat with 0%nat by lia.
  replace (100 - k)%nat with (S (99 - k)) by lia. cbn [take drop].
  change (<[0%nat := r]> (x :: take (99 - k) w')) with (r :: take (99 - k) w').
  destruct (Nat.eq_dec k 99%nat) as [-> | Hne].
  - change (99 + 1 - S 99 mod 100)%nat with 100%nat. change (99 - 99)%nat with 0%nat.
    rewrite (drop_ge (w' ++ [r])), (take_ge (w' ++ [r]))
      by (rewrite length_app; cbn [length]; lia).
    rewrite drop_0. reflexivity.
  - rewrite Nat.mod_small by lia.
    replace (99 + 1 - S k)%nat with (99 - k)%nat by lia.
    rewrite drop_app_le, take_app_le by lia. now rewrite <- app_assoc.
Qed.


End WindowFacts.

Section RingFacts.
Import Gas.

Lemma rotated_length k (w : list Z) : length (rotated k w) = length w.
Proof. unfold rotated. rewrite length_app, length_drop, length_take. lia. Qed.

Lemma rotated_sum k (w : list Z) : sum_Z (rotated k w) = sum_Z w.
Proof.
  unfold rotated. rewrite sum_Z_app, Z.add_comm, <- sum_Z_app.
  now rewrite take_drop.
Qed.

Lemma rotated_Forall (P : Z -> Prop) k (w : list Z) :
  Forall P w -> Forall P (rotated k w).
Proof.
  intros H. unfold rotated. apply Forall_app.
  split; [now apply Forall_drop | now apply Forall_take].
Qed.

Lemma ring_state_setup millis :
  setup millis = ring_state (Scheduler.at_boot millis) (replicate 100 0).
Proof. reflexivity. Qed.

(** One push moves the window on by one reading. *)
Lemma update_cache_ring boot (h : list Z) r :
  (100 <= length h)%nat ->
  update_cache (ring_state boot h) r = Some (ring_state boot (h ++ [r])).
Proof.
  intros Hh. unfold update_cache, ring_state.
  cbn [samples next_sample samples_to_average timing_of].
  assert (Hw : length (last_n 100 h) = 100%nat) by (apply last_n_length; lia).
  assert (Hk : ((length h - 100) mod 100 < 100)%nat) by (apply Nat.mod_upper_bound; lia).
  rewrite array_store_Some by (rewrite rotated_length, Hw; lia).
  cbn [mbind option_bind].
  rewrite !int_checked_Some by (unfold INT_MIN, INT_MAX; lia).
  cbn [mbind option_bind]. rewrite c_min_is_min, Nat2Z.id.
  rewrite rotated_push by assumption. rewrite <- last_n_snoc by lia.
  rewrite length_app. cbn [length].
  replace (length h + 1 - 100)%nat with (S (length h - 100)) by lia.
  assert (Em : (S ((length h - 100) mod 100) mod 100 = S (length h - 100) mod 100)%nat).
  { rewrite <- Nat.add_1_r, <- (Nat.add_1_r (length h - 100)).
    rewrite Nat.Div0.add_mod_idemp_l. reflexivity. }
  rewrite Em, <- Em. unfold MAX_SAMPLES.
  set (m := ((length h - 100) mod 100)%nat) in *. clearbody m.
  assert (En : (if Z.of_nat m + 1 >=? 100 then 0 else Z.of_nat m + 1)
               = Z.of_nat (S m mod 100)).
  { destruct (Z.geb_spec (Z.of_nat m + 1) 100) as [Hge | Hlt].
    - assert (E99 : m = 99%nat) by lia. subst m. reflexivity.
    - rewrite Nat.mod_small by lia. lia. }
  rewrite En. f_equal. f_equal. lia.
Qed.

Lemma push_all_ring boot (h rs : list Z) :
  (100 <= length h)%nat ->
  push_all (ring_state boot h) rs = Some (ring_state boot (h ++ rs)).
Proof.
  revert h. induction rs as [| r rs IH]; intros h Hh.
  - cbn. now rewrite app_nil_r.
  - cbn [push_all]. rewrite update_cache_ring by assumption. cbn [mbind option_bind].
    rewrite IH by (rewrite length_app; cbn [length]; lia).
    now rewrite <- app_assoc.
Qed.

(** After at least a buffer full of pushes since boot, the buffer is the
    rotated window of the last 100 readings and the average is their mean. *)
Lemma push_all_window millis (vs : list Z) :
  (100 <= length vs)%nat -> Forall int_valued vs ->
  exists g,
    push_all (setup millis) vs = Some g
    /\ samples g = rotated (length vs mod 100) (last_n 100 vs)
    /\ next_sample g = Z.of_nat (length vs mod 100)
    /\ samples_to_average g = 100
    /\ average_sensor_value g = Some (arithmetic_mean (last_n 100 vs)).
Proof.
  intros Hlen Hvs. eexists. rewrite ring_state_setup, push_all_ring
    by (rewrite length_replicate; lia).
  split; [reflexivity |]. unfold ring_state.
  cbn [samples next_sample samples_to_average].
  rewrite length_app, length_replicate.
  replace (100 + length vs - 100)%nat with (length vs) by lia.
  rewrite last_n_app_r by lia.
  split; [reflexivity |]. split; [reflexivity |]. split; [lia |].
  assert (Hw : length (last_n 100 vs) = 100%nat) by (apply last_n_length; lia).
  rewrite average_is_mean; cbn [samples samples_to_average].
  - f_equal. replace (Z.to_nat (Z.of_nat (Nat.min (length vs) 100))) with 100%nat by lia.
    rewrite take_ge by (rewrite rotated_length; lia).
    unfold arithmetic_mean. now rewrite rotated_sum, rotated_length.
  - apply rotated_Forall. unfold last_n. now apply Forall_drop.
  - rewrite rotated_length, Hw. reflexivity.
  - unfold MAX_SAMPLES. lia.
Qed.

End RingFacts.

(** X10.  In the filtered sketch, after any number of pushes since boot
    that is at least the capacity, the buffer holds exactly the 100 most
    recent readings (rotated so that the write index points at the oldest
    one), the count stays at 100, and the computed average is the
    arithmetic mean of those 100 readings: older readings have no
    influence. *)
Theorem average_is_mean_of_last_100 (millis : Z) (vs : list Z) :
  (100 <= length vs)%nat -> Forall int_valued vs ->
  exists g,
    Gas.push_all (Gas.setup millis) vs = Some g
    /\ Gas.samples g = rotated (length vs mod 100) (last_n 100 vs)
    /\ Gas.next_sample g = Z.of_nat (length vs mod 100)
    /\ Gas.samples_to_average g = 100
    /\ Gas.average_sensor_value g = Some (arithmetic_mean (last_n 100 vs)).
Proof.
  intros Hlen Hvs.
  destruct (push_all_window millis vs Hlen Hvs) as (g & E & Hs & Hn & Hc & Ha).
  exists g. split; [exact E |]. split; [exact Hs |]. split; [exact Hn |].
  split; [exact Hc | exact Ha].
Qed.

Lemma average_is_mean_of_last_100_witness :
  let vs := replicate 150 1000 ++ replicate 100 200 ++ [301; 302; 303] in
  exists g,
    Gas.push_all (Gas.setup 0) vs = Some g
    /\ Gas.samples g = rotated (length vs mod 100) (last_n 100 vs)
    /\ Gas.next_sample g = Z.of_nat (length vs mod 100)
    /\ Gas.samples_to_average g = 100
    /\ Gas.average_sensor_value g = Some (arithmetic_mean (last_n 100 vs)).
Proof.
  apply (average_is_mean_of_last_100 0); [vm_compute; lia |].
  repeat (apply Forall_app; split);
    try apply Forall_replicate;
    repeat constructor; unfold INT_MIN, INT_MAX; lia.
Defined.

(** ** A steady sensor *)

Section SteadyFacts.
Import Gas.

Lemma float_eqb_eq a b : float_eqb a b = true -> a = b.
Proof.
  destruct a as [s | s | | s m e], b as [t | t | | t n f]; cbn; try discriminate.
  - intros H. apply Bool.eqb_prop in H. now subst.
  - intros H. apply andb_true_iff in H as [H He]. apply andb_true_iff in H as [Hs Hm].
    apply Bool.eqb_prop in Hs. apply Pos.eqb_eq in Hm. apply Z.eqb_eq in He. now subst.
Qed.

(** Dividing [n] times a reading by [n] gives the reading back, for every
    fill level of the buffer and every reading of the converter. *)
Lemma mean_of_equal_readings n r :
  1 <= n <= 100 -> 0 <= r <= 1023 ->
  fdiv (float_of_int (n * r)) (float_of_int n) = float_of_int r.
Proof.
  intros Hn Hr.
  assert (Hall : forallb (fun i =>
                   forallb (fun k =>
                     float_eqb (fdiv (float_of_int (Z.of_nat (S i) * Z.of_nat k))
                                     (float_of_int (Z.of_nat (S i))))
                               (float_of_int (Z.of_nat k)))
                           (seq 0 1024))
                 (seq 0 100) = true) by (vm_compute; reflexivity).
  rewrite forallb_forall in Hall.
  specialize (Hall (Z.to_nat (n - 1)) ltac:(apply in_seq; lia)).
  rewrite forallb_forall in Hall.
  specialize (Hall (Z.to_nat r) ltac:(apply in_seq; lia)).
  apply float_eqb_eq in Hall.
  replace (Z.of_nat (S (Z.to_nat (n - 1)))) with n in Hall by lia.
  rewrite Z2Nat.id in Hall by lia. exact Hall.
Qed.

Lemma sum_Z_replicate n r : sum_Z (replicate n r) = Z.of_nat n * r.
Proof.
  unfold sum_Z. induction n as [| n IH]; cbn [replicate fold_right]; [lia |].
  rewrite IH. lia.
Qed.

Lemma all_equal_replicate (l : list Z) r :
  Forall (fun v => v = r) l -> l = replicate (length l) r.
Proof.
  induction 1 as [| x l Hx _ IH]; [reflexivity |]. cbn. now rewrite Hx, <- IH.
Qed.

(** An [int] converted to [float] and cast back is the same [int]. *)
Lemma float_to_int_of_int z :
  INT_MIN <= z <= INT_MAX -> float_to_int (float_of_int z) = Some z.
Proof.
  intros Hz. unfold INT_MIN, INT_MAX in Hz.
  destruct (float_of_int_value z) as (q & Eq & Hq); [unfold prec; lia |].
  unfold float_to_int. rewrite (ftrunc_to_Q _ _ Eq). cbn [mbind option_bind].
  assert (Et : Qtrunc q = z).
  { unfold Qtrunc. unfold Qeq, inject_Z in Hq. cbn [Qnum Qden] in Hq.
    rewrite Z.mul_1_r in Hq. rewrite Hq. apply Z.quot_mul. lia. }
  rewrite Et. apply int_checked_Some. unfold INT_MIN, INT_MAX. lia.
Qed.

Lemma steady_average g r :
  0 <= r <= 1023 ->
  Forall int_valued (samples g) ->
  length (samples g) = 100%nat ->
  1 <= samples_to_average g <= 100 ->
  Forall (fun v => v = r) (take (Z.to_nat (samples_to_average g)) (samples g)) ->
  average_sensor_value g = Some (float_of_int r).
Proof.
  intros Hr Hi Hlen Hc Hall.
  rewrite average_is_mean by (try assumption; unfold MAX_SAMPLES; lia).
  f_equal. rewrite (all_equal_replicate _ _ Hall).
  unfold arithmetic_mean. rewrite sum_Z_replicate, length_replicate, length_take, Hlen.
  replace (Z.of_nat (Nat.min (Z.to_nat (samples_to_average g)) 100))
    with (samples_to_average g) by lia.
  apply mean_of_equal_readings; lia.
Qed.

End SteadyFacts.

(** X11.  In the filtered sketch, when all valid entries of the buffer hold
    the same reading r of the converter range, at any fill level from 1 to
    100, the computed average is exactly r, and the sensor value handed to
    the stats line is r. *)
Theorem average_of_equal_readings (g : Gas.globals) (r : Z) :
  0 <= r <= 1023 ->
  Forall int_valued (Gas.samples g) ->
  length (Gas.samples g) = 100%nat ->
  1 <= Gas.samples_to_average g <= 100 ->
  Forall (fun v => v = r) (take (Z.to_nat (Gas.samples_to_average g)) (Gas.samples g)) ->
  exists average,
    Gas.average_sensor_value g = Some average
    /\ average = float_of_int r
    /\ float_to_int average = Some r.
Proof.
  intros Hr Hi Hlen Hc Hall. exists (float_of_int r).
  split; [now apply steady_average |]. split; [reflexivity |].
  apply float_to_int_of_int. unfold INT_MIN, INT_MAX. lia.
Qed.

Lemma average_of_equal_readings_witness :
  let g := filled (Scheduler.at_boot 0) (replicate 37 512) in
  exists average,
    Gas.average_sensor_value g = Some average
    /\ average = float_of_int 512
    /\ float_to_int average = Some 512.
Proof.
  apply (average_of_equal_readings (filled (Scheduler.at_boot 0) (replicate 37 512)) 512).
  - lia.
  - cbn [filled Gas.samples]. apply Forall_app.
    split; apply Forall_replicate; unfold int_valued, INT_MIN, INT_MAX; lia.
  - reflexivity.
  - cbn. lia.
  - vm_compute. repeat constructor.
Defined.

Section SteadyRun.
Import Scheduler Gas.

Lemma steady_setup r millis : steady r (setup millis).
Proof.
  split; [apply wf_setup |]. cbn. split; [reflexivity |].
  split; [constructor |].
  apply Forall_replicate. unfold int_valued, INT_MIN, INT_MAX. lia.
Qed.

Lemma steady_update g r :
  0 <= r <= 1023 -> steady r g ->
  exists g1,
    update_cache g r = Some g1
    /\ 1 <= samples_to_average g1 <= 100
    /\ length (samples g1) = 100%nat
    /\ (samples_to_average g1 < 100 -> next_sample g1 = samples_to_average g1)
    /\ Forall (fun v => v = r) (take (Z.to_nat (samples_to_average g1)) (samples g1))
    /\ Forall int_valued (samples g1).
Proof.
  intros Hr (Hwf & Hfill & Hall & Hint).
  destruct (update_cache_defined g r Hwf) as (g1 & E & _ & Es & En & Ec & Hlen & _ & Hc).
  destruct Hwf as (_ & Hlen0 & Hn & Hc0). unfold MAX_SAMPLES in *.
  exists g1. split; [exact E |]. split; [lia |]. split; [exact Hlen |].
  split; [| split].
  - intros Hlt. rewrite En, Ec.
    destruct (Z.geb_spec (next_sample g + 1) 100) as [Hge | Hge]; lia.
  - rewrite Es, Ec.
    destruct (Z_lt_le_dec (samples_to_average g) 100) as [Hlt | Hfull].
    + rewrite (Hfill Hlt).
      replace (Z.to_nat (Z.min (samples_to_average g + 1) 100))
        with (S (Z.to_nat (samples_to_average g))) by lia.
      set (c := Z.to_nat (samples_to_average g)) in *.
      assert (Hcl : (c < length (samples g))%nat) by lia.
      destruct (lookup_lt_is_Some_2 (samples g) c Hcl) as [x Hx].
      assert (Hx' : <[c := r]> (samples g) !! c = Some r)
        by (apply list_lookup_insert_eq; exact Hcl).
      rewrite (take_S_r _ _ _ Hx'), take_insert_ge by lia.
      apply Forall_app. split; [exact Hall | now repeat constructor].
    + replace (Z.to_nat (Z.min (samples_to_average g + 1) 100)) with 100%nat by lia.
      replace (Z.to_nat (samples_to_average g)) with 100%nat in Hall by lia.
      rewrite firstn_all2 in Hall by lia.
      rewrite firstn_all2 by (rewrite length_insert; lia).
      apply Forall_insert; [exact Hall | reflexivity].
  - rewrite Es. apply Forall_insert; [exact Hint |].
    unfold int_valued, INT_MIN, INT_MAX. lia.
Qed.

Lemma steady_loop g r millis :
  0 <= r <= 1023 -> steady r g ->
  exists g' tr,
    loop g millis r = Some (g', tr) /\ steady r g' /\ Forall (shows_reading r) tr.
Proof.
  intros Hr Hs. destruct (not_yet (timing_of g) (to_uint millis)) eqn:E.
  - rewrite gas_loop_idle by assumption. eexists _, _. split; [reflexivity |].
    split; [exact Hs |]. unfold diagnostics. repeat constructor.
  - assert (Hwf := Hs). destruct Hwf as (Hwf & _).
    destruct (steady_update g r Hr Hs) as (g1 & E1 & Hc & Hlen & Hfill & Hall & Hint).
    destruct (gas_loop_due g millis r Hwf E) as (g1' & average & E1' & Ea & ->).
    rewrite E1 in E1'. inversion E1'; subst g1'.
    rewrite (steady_average g1 r Hr Hint Hlen Hc Hall) in Ea. inversion Ea; subst average.
    eexists _, _. split; [reflexivity |]. split.
    + destruct (update_cache_defined g r Hwf) as (g1' & E1'' & _ & _ & _ & _ & _ & Hn & _).
      rewrite E1 in E1''. inversion E1''; subst g1'.
      destruct Hwf as (Ht & _).
      split; [| cbn [samples next_sample samples_to_average]; now repeat split].
      split; [now apply wf_sampled_at |]. cbn. unfold MAX_SAMPLES in *.
      repeat split; try tauto; lia.
    + apply Forall_app. split; [unfold diagnostics; repeat constructor |].
      rewrite float_to_int_of_int by (unfold INT_MIN, INT_MAX; lia).
      repeat constructor.
Qed.

Lemma steady_run g r polls :
  0 <= r <= 1023 -> steady r g -> Forall (fun p => snd p = r) polls ->
  exists g' tr,
    run g polls = Some (g', tr) /\ steady r g' /\ Forall (shows_reading r) tr.
Proof.
  intros Hr Hs Hp. revert g Hs.
  induction Hp as [| [millis sensor] rest Hhd _ IH]; intros g Hs.
  - cbn. eexists _, _. split; [reflexivity |]. split; [exact Hs | constructor].
  - cbn in Hhd. subst sensor. cbn [run].
    destruct (steady_loop g r millis Hr Hs) as (g1 & tr1 & E1 & Hs1 & Ht1).
    rewrite E1. cbn [mbind option_bind].
    destruct (IH g1 Hs1) as (g2 & tr2 & E2 & Hs2 & Ht2).
    rewrite E2. cbn [mbind option_bind]. eexists _, _. split; [reflexivity |].
    split; [exact Hs2 |]. apply Forall_app. now split.
Qed.

End SteadyRun.

(** X12.  In the filtered sketch, while the sensor stays at one reading r
    of the converter range from boot on, every poll returns and every
    display update shows r itself: the stats line gets the sensor value r
    and the gallons computed from r, the meter the block count of those
    gallons, however many samples the buffer holds and wherever its write
    index stands. *)
Theorem steady_sensor_steady_display (millis r : Z) (polls : list (Z * Z)) :
  0 <= r <= 1023 ->
  Forall (fun p => snd p = r) polls ->
  exists g' tr,
    Gas.run (Gas.setup millis) polls = Some (g', tr)
    /\ Forall (shows_reading r) tr
    /\ Forall (fun v => v = Some r) (stats_sensor_values tr).
Proof.
  intros Hr Hp.
  destruct (steady_run (Gas.setup millis) r polls Hr (steady_setup r millis) Hp)
    as (g' & tr & E & _ & Ht).
  exists g', tr. split; [exact E |]. split; [exact Ht |].
  clear E. induction Ht as [| e tr He _ IH]; [constructor |].
  destruct e; cbn [stats_sensor_values flat_map app] in *; try exact IH.
  constructor; [apply He | exact IH].
Qed.

Lemma steady_sensor_steady_display_witness :
  exists g' tr,
    Gas.run (Gas.setup 0) [(500, 417); (700, 417); (1000, 417); (6000, 417); (11000, 417)]
    = Some (g', tr)
    /\ Forall (shows_reading 417) tr
    /\ Forall (fun v => v = Some 417) (stats_sensor_values tr).
Proof.
  apply (steady_sensor_steady_display 0 417
           [(500, 417); (700, 417); (1000, 417); (6000, 417); (11000, 417)]).
  - lia.
  - repeat constructor.
Defined.

(** ** The shape of a run *)

Section TraceFacts.
Import Scheduler.

Lemma io_events_app tr1 tr2 : io_events (tr1 ++ tr2) = io_events tr1 ++ io_events tr2.
Proof. unfold io_events. apply List.filter_app. Qed.

Lemma io_events_diagnostics t cur : io_events (diagnostics t cur) = [].
Proof. reflexivity. Qed.

Lemma read_then_render_app tr1 tr2 :
  read_then_render tr1 -> read_then_render tr2 -> read_then_render (tr1 ++ tr2).
Proof.
  induction 1 as [| p v n s o g rest _ IH | p v n r s g rest _ IH]; intros H2;
    [exact H2 | |]; cbn [app]; constructor; now apply IH.
Qed.

Lemma ohm_loop_shape g millis sensor :
  read_then_render (io_events (snd (Ohm.loop g millis sensor))).
Proof.
  unfold Ohm.loop. cbv zeta. destruct (not_yet g (to_uint millis)); cbn [snd].
  - rewrite io_events_diagnostics. constructor.
  - rewrite io_events_app, io_events_diagnostics. cbn. repeat constructor.
Qed.

Lemma gas_loop_shape g millis sensor g' tr :
  Gas.loop g millis sensor = Some (g', tr) -> read_then_render (io_events tr).
Proof.
  unfold Gas.loop. cbv zeta. destruct (not_yet (Gas.timing_of g) (to_uint millis)).
  - intros E. injection E as _ <-. rewrite io_events_diagnostics. constructor.
  - destruct (Gas.update_cache g sensor) as [g1 |]; cbn [mbind option_bind]; [| discriminate].
    destruct (Gas.average_sensor_value g1) as [avg |]; cbn [mbind option_bind];
      [| discriminate].
    intros E. injection E as _ <-.
    cbn. repeat constructor.
Qed.

Lemma ohm_run_shape g polls : read_then_render (io_events (snd (Ohm.run g polls))).
Proof.
  revert g. induction polls as [| [millis sensor] rest IH]; intros g.
  - constructor.
  - cbn [Ohm.run]. pose proof (ohm_loop_shape g millis sensor) as H1.
    destruct (Ohm.loop g millis sensor) as [g1 tr1]. specialize (IH g1).
    destruct (Ohm.run g1 rest) as [g2 tr2]. cbn [snd] in *.
    rewrite io_events_app. now apply read_then_render_app.
Qed.

Lemma gas_run_shape g polls g' tr :
  Gas.run g polls = Some (g', tr) -> read_then_render (io_events tr).
Proof.
  revert g g' tr. induction polls as [| [millis sensor] rest IH]; intros g g' tr.
  - cbn. intros E. inversion E. constructor.
  - cbn [Gas.run]. destruct (Gas.loop g millis sensor) as [[g1 tr1] |] eqn:E1;
      cbn [mbind option_bind]; [| discriminate].
    destruct (Gas.run g1 rest) as [[g2 tr2] |] eqn:E2; cbn [mbind option_bind];
      [| discriminate].
    intros E. inversion E. rewrite io_events_app.
    apply read_then_render_app; [eapply gas_loop_shape | eapply IH]; eassumption.
Qed.

End TraceFacts.

(** X13.  In a run of either sketch, from any globals, the sensor reads
    and display calls come in groups of three: one sensor read, then one
    [show_gas_meter] call, then one [show_gas_stats] call.  Nothing is
    displayed without a fresh read, and no read goes undisplayed. *)
Theorem every_update_reads_then_renders :
  (forall g polls, read_then_render (io_events (snd (Ohm.run g polls))))
  /\ (forall g polls g' tr,
        Gas.run g polls = Some (g', tr) -> read_then_render (io_events tr)).
Proof.
  split.
  - intros g polls. apply ohm_run_shape.
  - intros g polls g' tr E. revert E. apply gas_run_shape.
Qed.

Lemma every_update_reads_then_renders_witness :
  exists g' tr,
    Gas.run (Gas.setup 0) [(100, 300); (500, 310); (1200, 320)] = Some (g', tr)
    /\ length (io_events tr) = 6%nat
    /\ read_then_render (io_events tr).
Proof.
  destruct (Gas.run (Gas.setup 0) [(100, 300); (500, 310); (1200, 320)])
    as [[g' tr] |] eqn:E; [| vm_compute in E; discriminate E].
  exists g', tr. split; [reflexivity |].
  split; [vm_compute in E; inversion E; reflexivity |].
  destruct every_update_reads_then_renders as (_ & H).
  exact (H _ _ _ _ E).
Defined.

(** ** One scheduler for both sketches *)

Section ScheduleFacts.
Import Scheduler.

Lemma serial_log_app tr1 tr2 : serial_log (tr1 ++ tr2) = serial_log tr1 ++ serial_log tr2.
Proof. unfold serial_log. apply List.filter_app. Qed.

Lemma sensor_reads_app tr1 tr2 :
  sensor_reads (tr1 ++ tr2) = sensor_reads tr1 ++ sensor_reads tr2.
Proof. unfold sensor_reads. apply flat_map_app. Qed.

(** One tick: the filtered sketch moves its timing globals as the
    unfiltered one does, writes the same diagnostics and reads the sensor
    on the same condition. *)
Lemma same_tick g millis sensor :
  Gas.wf g ->
  exists g' tr,
    Gas.loop g millis sensor = Some (g', tr)
    /\ Gas.wf g'
    /\ Gas.timing_of g' = fst (Ohm.loop (Gas.timing_of g) millis sensor)
    /\ serial_log tr = serial_log (snd (Ohm.loop (Gas.timing_of g) millis sensor))
    /\ sensor_reads tr = sensor_reads (snd (Ohm.loop (Gas.timing_of g) millis sensor)).
Proof.
  intros Hwf. destruct (gas_loop_wf g millis sensor Hwf) as (g' & tr & E & Hwf').
  exists g', tr. split; [exact E |]. split; [exact Hwf' |].
  destruct (not_yet (Gas.timing_of g) (to_uint millis)) eqn:Hn.
  - rewrite gas_loop_idle in E by assumption. injection E as <- <-.
    rewrite ohm_loop_idle by assumption. now repeat split.
  - destruct (gas_loop_due g millis sensor Hwf Hn) as (g1 & average & _ & _ & E').
    rewrite E' in E. injection E as <- <-.
    unfold Ohm.loop. cbv zeta. rewrite Hn. cbn [fst snd Gas.timing_of].
    split; [reflexivity |].
    rewrite !serial_log_app, !sensor_reads_app. split; reflexivity.
Qed.

End ScheduleFacts.

(** X14.  Both sketches run the same scheduler: started from the same
    timing globals and polled with the same clock and sensor values, they
    end with the same timing globals, write the same serial diagnostics
    and read the sensor on the same polls (the same readings in the same
    order); the filtering of the one never changes when it samples. *)
Theorem sketches_share_schedule (g : Gas.globals) (polls : list (Z * Z)) :
  Gas.wf g ->
  exists g' tr,
    Gas.run g polls = Some (g', tr)
    /\ Gas.timing_of g' = fst (Ohm.run (Gas.timing_of g) polls)
    /\ serial_log tr = serial_log (snd (Ohm.run (Gas.timing_of g) polls))
    /\ sensor_reads tr = sensor_reads (snd (Ohm.run (Gas.timing_of g) polls)).
Proof.
  revert g. induction polls as [| [millis sensor] rest IH]; intros g Hwf.
  - cbn. eexists _, _. split; [reflexivity |]. now repeat split.
  - cbn [Gas.run Ohm.run].
    destruct (same_tick g millis sensor Hwf) as (g1 & tr1 & E1 & Hwf1 & Et & El & Er).
    rewrite E1. cbn [mbind option_bind].
    destruct (IH g1 Hwf1) as (g2 & tr2 & E2 & Et2 & El2 & Er2).
    rewrite E2. cbn [mbind option_bind].
    destruct (Ohm.loop (Gas.timing_of g) millis sensor) as [o1 otr1].
    cbn [fst snd] in *. subst o1.
    destruct (Ohm.run (Gas.timing_of g1) rest) as [o2 otr2]. cbn [fst snd] in *.
    eexists _, _. split; [reflexivity |]. split; [exact Et2 |].
    rewrite !serial_log_app, !sensor_reads_app. now rewrite El, El2, Er, Er2.
Qed.

Lemma sketches_share_schedule_witness :
  let polls := [(100, 300); (500, 310); (1200, 320); (6000, 330); (9000, 340); (11000, 350)] in
  exists g' tr,
    Gas.run (Gas.setup 0) polls = Some (g', tr)
    /\ Gas.timing_of g' = fst (Ohm.run (Gas.timing_of (Gas.setup 0)) polls)
    /\ serial_log tr = serial_log (snd (Ohm.run (Gas.timing_of (Gas.setup 0)) polls))
    /\ sensor_reads tr = sensor_reads (snd (Ohm.run (Gas.timing_of (Gas.setup 0)) polls)).
Proof.
  apply (sketches_share_schedule (Gas.setup 0)
           [(100, 300); (500, 310); (1200, 320); (6000, 330); (9000, 340); (11000, 350)]).
  apply wf_setup.
Defined.

(** ** More fuel, more blocks *)

Section BlockFacts.

(** A function on [0 .. hi] that does not increase from one value to the
    next does not increase at all. *)
Lemma antitone_on_range (f : Z -> option Z) (hi : nat) :
  forallb (fun k => match f (Z.of_nat k), f (Z.of_nat (S k)) with
                    | Some a, Some b => b <=? a
                    | _, _ => false
                    end) (seq 0 hi) = true ->
  forall r1 r2, 0 <= r1 -> r1 < r2 -> r2 <= Z.of_nat hi ->
  exists n1 n2, f r1 = Some n1 /\ f r2 = Some n2 /\ n2 <= n1.
Proof.
  intros Hall r1 r2 H0 Hlt Hhi. rewrite forallb_forall in Hall.
  assert (Hstep : forall k, (k < hi)%nat ->
            exists a b, f (Z.of_nat k) = Some a /\ f (Z.of_nat (S k)) = Some b /\ b <= a).
  { intros k Hk. specialize (Hall k ltac:(apply in_seq; lia)).
    destruct (f (Z.of_nat k)) as [a |]; [| discriminate].
    destruct (f (Z.of_nat (S k))) as [b |]; [| discriminate].
    exists a, b. repeat split. now apply Z.leb_le. }
  replace r2 with (r1 + Z.of_nat (S (Z.to_nat (r2 - r1 - 1)))) in * by lia.
  generalize dependent (Z.to_nat (r2 - r1 - 1)). intros d _ Hhi.
  induction d as [| d IH].
  - destruct (Hstep (Z.to_nat r1) ltac:(lia)) as (a & b & Ea & Eb & Hle).
    rewrite Z2Nat.id in Ea by lia.
    replace (Z.of_nat (S (Z.to_nat r1))) with (r1 + Z.of_nat 1) in Eb by lia.
    now exists a, b.
  - destruct IH as (n1 & n2 & E1 & E2 & Hle); [lia |].
    destruct (Hstep (Z.to_nat (r1 + Z.of_nat (S d))) ltac:(lia)) as (a & b & Ea & Eb & Hab).
    rewrite Z2Nat.id in Ea by lia. rewrite Ea in E2. injection E2 as ->.
    replace (Z.of_nat (S (Z.to_nat (r1 + Z.of_nat (S d)))))
      with (r1 + Z.of_nat (S (S d))) in Eb by lia.
    exists n1, b. repeat split; [exact E1 | exact Eb | lia].
Qed.

Lemma ohm_blocks_in_range r n : ohm_blocks r = Some n -> 0 <= n <= 16.
Proof.
  unfold ohm_blocks. destruct (Ohm.estimate_ohmage_from_reading r) as [o |];
    cbn [fmap option_fmap option_map mbind option_bind]; [apply blocks_in_range | discriminate].
Qed.

Lemma ohm_blocks_steps :
  forallb (fun k => match ohm_blocks (Z.of_nat k), ohm_blocks (Z.of_nat (S k)) with
                    | Some a, Some b => b <=? a
                    | _, _ => false
                    end) (seq 0 1023) = true.
Proof. vm_compute. reflexivity. Qed.

Lemma gas_blocks_steps :
  forallb (fun k => match gas_blocks (Z.of_nat k), gas_blocks (Z.of_nat (S k)) with
                    | Some a, Some b => b <=? a
                    | _, _ => false
                    end) (seq 0 1023) = true.
Proof. vm_compute. reflexivity. Qed.

End BlockFacts.

(** X15.  Over the converter range 0..1023 the displayed bar never grows
    with the reading, in either sketch: a higher reading (a higher sender
    resistance, less fuel) shows at most as many blocks.  The bar is full
    (16 blocks) at reading 0 and empty at reading 1023. *)
Theorem higher_reading_fewer_blocks (r1 r2 : Z) :
  0 <= r1 -> r1 < r2 -> r2 <= 1023 ->
  (exists n1 n2, ohm_blocks r1 = Some n1 /\ ohm_blocks r2 = Some n2
                 /\ 0 <= n2 <= n1 /\ n1 <= 16)
  /\ (exists n1 n2, gas_blocks r1 = Some n1 /\ gas_blocks r2 = Some n2
                    /\ 0 <= n2 <= n1 /\ n1 <= 16)
  /\ ohm_blocks 0 = Some 16 /\ ohm_blocks 1023 = Some 0
  /\ gas_blocks 0 = Some 16 /\ gas_blocks 1023 = Some 0.
Proof.
  intros H0 Hlt Hhi. split; [| split].
  - destruct (antitone_on_range ohm_blocks 1023 ohm_blocks_steps r1 r2)
      as (n1 & n2 & E1 & E2 & Hle); [lia .. |].
    exists n1, n2. split; [exact E1 |]. split; [exact E2 |].
    apply ohm_blocks_in_range in E1. apply ohm_blocks_in_range in E2. lia.
  - destruct (antitone_on_range gas_blocks 1023 gas_blocks_steps r1 r2)
      as (n1 & n2 & E1 & E2 & Hle); [lia .. |].
    exists n1, n2. split; [exact E1 |]. split; [exact E2 |].
    apply blocks_in_range in E1. apply blocks_in_range in E2. lia.
  - vm_compute. repeat split.
Qed.

Lemma higher_reading_fewer_blocks_witness :
  (exists n1 n2, ohm_blocks 243 = Some n1 /\ ohm_blocks 534 = Some n2
                 /\ 0 <= n2 <= n1 /\ n1 <= 16)
  /\ (exists n1 n2, gas_blocks 243 = Some n1 /\ gas_blocks 534 = Some n2
                    /\ 0 <= n2 <= n1 /\ n1 <= 16)
  /\ ohm_blocks 0 = Some 16 /\ ohm_blocks 1023 = Some 0
  /\ gas_blocks 0 = Some 16 /\ gas_blocks 1023 = Some 0.
Proof.
  apply (higher_reading_fewer_blocks 243 534); lia.
Defined.
